(** * PCI configuration-space header decoder and renderer

    A shallow embedding of the table-driven decoder that the repository
    ships twice: as a user-space program driving the 0xCF8/0xCFC port pair
    ([pci_header.c]) and as a kernel module reading through the PCI core
    ([pci_dev.c]).  Both copies share the layout tables, [int_2_hexstr] and
    the two inner loops of [print_pci_header]; they differ in how a dword is
    read, in the print primitive and in the checks made before the layout
    table is selected.

    Integers are modelled as [Z] with the C wrap-around written out, under
    the LP64 data model of the x86-64 targets the sources are written for
    ([unsigned int] is 32 bits, [long], [size_t] and [u64] are 64 bits).
    Text is a list of characters.  A computation that the C standard leaves
    undefined (an array read outside its bounds, a shift by 64 bits or more,
    a signed overflow) yields [None]. *)

From Stdlib Require Import ZArith Lia Ascii String.
From stdpp Require Import base numbers list strings.

Local Open Scope Z_scope.

(** ** Text *)

Abbreviation text := (list ascii).

Definition str (s : string) : text := list_ascii_of_string s.

Definition strlen (t : text) : Z := Z.of_nat (length t).

Definition newline : ascii := ascii_of_nat 10.

(** Number of line terminators in a text. *)
Definition line_count (t : text) : nat :=
  length (filter (λ c, c = newline) t).

(** ** Machine integers *)

Definition wrap32 (z : Z) : Z := z mod 2 ^ 32.
Definition wrap64 (z : Z) : Z := z mod 2 ^ 64.

(** Conversion to [int] of a value that was computed in an unsigned type. *)
Definition to_int (z : Z) : Z :=
  let u := wrap32 z in if u <? 2 ^ 31 then u else u - 2 ^ 32.

(** [a << n] on a non-negative [long]: undefined when the count reaches the
    width of the type or the result is not representable. *)
Definition shl_long (a n : Z) : option Z :=
  if (0 <=? a) && (0 <=? n) && (n <? 64) && (Z.shiftl a n <? 2 ^ 63)
  then Some (Z.shiftl a n) else None.

(** [a >> n] on a [u64]: undefined when the count reaches 64. *)
Definition shr_u64 (a n : Z) : option Z :=
  if (0 <=? n) && (n <? 64) then Some (Z.shiftr a n) else None.

(** ** Layout tables *)

Record config_space_bitfield := Bitfield {
  bf_name : string;
  bf_offset : Z;
  bf_size : Z
}.

Definition type_0_header : list config_space_bitfield := [
  Bitfield "Vendor ID"             0x0  2;
  Bitfield "Device ID"             0x2  2;
  Bitfield "Command"               0x4  2;
  Bitfield "Status"                0x6  2;
  Bitfield "Revision ID"           0x8  1;
  Bitfield "Class Code"            0xA  3;
  Bitfield "Cache Line S"          0xC  1;
  Bitfield "Lat. Timer"            0xD  1;
  Bitfield "Header Type"           0xE  1;
  Bitfield "BIST"                  0xF  1;
  Bitfield "BAR 0"                 0x10 4;
  Bitfield "BAR 1"                 0x14 4;
  Bitfield "BAR 2"                 0x18 4;
  Bitfield "BAR 3"                 0x1C 4;
  Bitfield "BAR 4"                 0x20 4;
  Bitfield "BAR 5"                 0x24 4;
  Bitfield "Cardbus CIS Pointer"   0x28 4;
  Bitfield "Subsystem Vendor ID"   0x2C 2;
  Bitfield "Subsystem ID"          0x2E 2;
  Bitfield "Expansion ROM Address" 0x30 4;
  Bitfield "Cap. Pointer"          0x34 1;
  Bitfield "Reserved"              0x35 3;
  Bitfield "Reserved"              0x38 4;
  Bitfield "IRQ"                   0x3C 1;
  Bitfield "IRQ Pin"               0x3D 1;
  Bitfield "Min Gnt."              0x3E 1;
  Bitfield "Max Lat."              0x3F 1;
  Bitfield "End"                   0x40 5
].

Definition type_1_header : list config_space_bitfield := [
  Bitfield "Vendor ID"             0x0  2;
  Bitfield "Device ID"             0x2  2;
  Bitfield "Command"               0x4  2;
  Bitfield "Status"                0x6  2;
  Bitfield "Revision ID"           0x8  1;
  Bitfield "Class Code"            0xA  3;
  Bitfield "Cache Line S"          0xC  1;
  Bitfield "Lat. Timer"            0xD  1;
  Bitfield "Header Type"           0xE  1;
  Bitfield "BIST"                  0xF  1;
  Bitfield "BAR 0"                 0x10 4;
  Bitfield "BAR 1"                 0x14 4;
  Bitfield "Primary Bus"           0x18 1;
  Bitfield "Secondary Bus"         0x19 1;
  Bitfield "Sub. Bus"              0x1A 1;
  Bitfield "Sec Lat timer"         0x1B 1;
  Bitfield "IO Base"               0x1C 1;
  Bitfield "IO Limit"              0x1D 1;
  Bitfield "Sec. Status"           0x1E 2;
  Bitfield "Memory Limit"          0x20 2;
  Bitfield "Memory Base"           0x22 2;
  Bitfield "Pref. Memory Limit"    0x24 2;
  Bitfield "Pref. Memory Base"     0x26 2;
  Bitfield "Pref. Memory Base U"   0x28 4;
  Bitfield "Pref. Memory Base L"   0x2C 4;
  Bitfield "IO Base Upper"         0x30 2;
  Bitfield "IO Limit Upper"        0x32 2;
  Bitfield "Cap. Pointer"          0x34 1;
  Bitfield "Reserved"              0x35 3;
  Bitfield "Exp. ROM Base Addr"    0x38 4;
  Bitfield "IRQ Line"              0x3C 1;
  Bitfield "IRQ Pin"               0x3D 1;
  Bitfield "Min Gnt."              0x3E 1;
  Bitfield "Max Lat."              0x3F 1;
  Bitfield "End"                   0x40 5
].

(** [types[2]]: the layout table, indexed by the header type. *)
Definition types : list (list config_space_bitfield) :=
  [type_0_header; type_1_header].

(** [ctypes[]], local to [print_pci_header]. *)
Definition ctypes : list string := ["n Endpoint"; " Bridge"]%string.

(** ** int_2_hexstr *)

Definition letters : text := str "0123456789ABCDEF".

(** [for (i = 0; i < size; i++) strcat(destination, "00");] *)
Fixpoint strcat_zeros (n : nat) (destination : text) : text :=
  match n with
  | O => destination
  | S n' => strcat_zeros n' (destination ++ str "00")
  end.

(** [while ((value > 0) && (i > 1)) { destination[i] = letters[value & 0xf];
    value = value >> 4; i--; }], by recursion on the index [i], which the
    body decrements. *)
Fixpoint copy_value (i : nat) (value : Z) (destination : text) : text :=
  match i with
  | O => destination
  | S i' =>
      if (0 <? value) && (1 <? Z.of_nat i)
      then copy_value i' (Z.shiftr value 4)
             (<[i := default "0"%char (letters !! Z.to_nat (Z.land value 0xf))]>
                destination)
      else destination
  end.

(** The function writes into the caller's buffer; the model returns the C
    string that the buffer holds on return.  The index [i] starts on the
    last character of that string, so every write of the loop falls inside
    it. *)
Definition int_2_hexstr (value size : Z) : text :=
  let destination := str "0x" in
  let destination := strcat_zeros (Z.to_nat size) destination in
  let i := wrap32 (2 + 2 * size - 1) in
  copy_value (Z.to_nat i) (wrap32 value) destination.

(** ** printf conversions *)

Definition lower_digits : text := str "0123456789abcdef".

(** The [n] low nibbles of [v], most significant first. *)
Fixpoint fmt_nibbles (n : nat) (v : Z) : text :=
  match n with
  | O => []
  | S n' =>
      fmt_nibbles n' (Z.shiftr v 4)
        ++ [default "0"%char (lower_digits !! Z.to_nat (Z.land v 0xf))]
  end.

Fixpoint strip_zeros (minw : nat) (ds : text) : text :=
  match ds with
  | [] => []
  | c :: ds' =>
      if bool_decide (c = "0"%char) && (minw <? length ds)%nat
      then strip_zeros minw ds' else ds
  end.

(** [%x] is [fmt_x 1], [%02x] is [fmt_x 2], on an [unsigned int]. *)
Definition fmt_x (minw : nat) (v : Z) : text :=
  strip_zeros minw (fmt_nibbles 8 (wrap32 v)).

(** ** Effects

    A computation threads a state and may be undefined. *)

Definition M (St A : Type) : Type := St → option (A * St).

Definition ret {St A} (a : A) : M St A := λ s, Some (a, s).

Definition bind {St A B} (c : M St A) (k : A → M St B) : M St B :=
  λ s, match c s with Some (a, s') => k a s' | None => None end.

Definition undefined {St A} : M St A := λ _, None.

Definition lift {St A} (o : option A) : M St A :=
  λ s, match o with Some a => Some (a, s) | None => None end.

Declare Scope monad_scope.
Delimit Scope monad_scope with M.
Notation "x <- c ;; k" := (bind c (λ x, k))
  (at level 100, c at next level, right associativity) : monad_scope.
Notation "c ;; k" := (bind c (λ _, k))
  (at level 100, right associativity) : monad_scope.

(** ** The field loops of print_pci_header

    The two [while] loops are the same text in both copies of
    [print_pci_header] up to the print primitive ([putchar]/[printf] against
    [pr_cont]), which is the parameter [put] here. *)

(** [for (j = from; j < (int) to; j++) putchar(' ');] *)
Definition spaces (from to : Z) : text :=
  replicate (Z.to_nat (to - from)) " "%char.

(** What one iteration of the label loop prints for [ptr[bitfield]]. *)
Definition label_cell (bf : config_space_bitfield) : text :=
  let space_available := wrap32 (14 * bf_size bf + wrap32 (bf_size bf - 1)) in
  let padding :=
    wrap32 (wrap64 (space_available - strlen (str (bf_name bf))) / 2) in
  spaces 0 (to_int padding)
    ++ str (bf_name bf)
    ++ spaces (to_int (wrap64 (to_int padding + strlen (str (bf_name bf)))))
              (to_int space_available)
    ++ str "|".

(** [8*(ptr[bitfield].offset - i)], in [unsigned int]. *)
Definition bitfield_shift (bf : config_space_bitfield) (i : Z) : Z :=
  wrap32 (8 * wrap32 (bf_offset bf - i)).

(** [mask = ((1L<<(ptr[bitfield].size * 8))-1) << (8*(ptr[bitfield].offset - i));] *)
Definition bitfield_mask (bf : config_space_bitfield) (i : Z) : option Z :=
  a ← shl_long 1 (wrap32 (bf_size bf * 8));
  m ← shl_long (a - 1) (bitfield_shift bf i);
  Some (wrap64 m).

(** [bf_value = (value & mask) >> (8*(ptr[bitfield].offset - i));] *)
Definition bitfield_value (bf : config_space_bitfield) (i value : Z)
  : option Z :=
  mask ← bitfield_mask bf i;
  v ← shr_u64 (Z.land value mask) (bitfield_shift bf i);
  Some (wrap32 v).

(** [char str_value[16]] has to hold the string and its terminator. *)
Definition fits_str_value (size : Z) : bool := 2 + 2 * size + 1 <=? 16.

(** The padding computed for the value row, and the column it is for. *)
Definition value_space_available (bf : config_space_bitfield) : Z :=
  wrap32 (wrap32 (14 * bf_size bf + bf_size bf) - 1).

Definition value_padding (bf : config_space_bitfield) : Z :=
  wrap32 (value_space_available bf - wrap32 (2 + bf_size bf)) / 2.

(** What one iteration of the value loop prints for [ptr[bitfield]]. *)
Definition value_cell (bf : config_space_bitfield) (i value : Z)
  : option text :=
  bf_value ← bitfield_value bf i value;
  let space_available := value_space_available bf in
  let padding := value_padding bf in
  if fits_str_value (bf_size bf) then
    let str_value := int_2_hexstr bf_value (bf_size bf) in
    Some (spaces 0 (to_int padding)
            ++ str_value
            ++ spaces (to_int (wrap64 (to_int padding + strlen str_value)))
                      (to_int space_available)
            ++ str "|")
  else None.

Section Loops.
Context {St : Type} (put : text → St → St).

Local Open Scope monad_scope.

Definition emit (t : text) : M St unit := λ s, Some (tt, put t s).

(** [while (ptr[bitfield].offset < i+4) { ...; bitfield++; }] over
    [rest = &ptr[bitfield]]; reading past the last element of the array
    is undefined. *)
Fixpoint label_loop (rest : list config_space_bitfield) (i : Z)
    (bitfield : nat) : M St nat :=
  match rest with
  | [] => undefined
  | bf :: rest' =>
      if bf_offset bf <? wrap32 (i + 4) then
        emit (label_cell bf);;
        label_loop rest' i (S bitfield)
      else ret bitfield
  end.

Fixpoint value_loop (rest : list config_space_bitfield) (i value : Z)
    (bitfield : nat) : M St nat :=
  match rest with
  | [] => undefined
  | bf :: rest' =>
      if bf_offset bf <? wrap32 (i + 4) then
        if bf_size bf =? 5 then ret bitfield
        else
          cell <- lift (value_cell bf i value);;
          emit cell;;
          value_loop rest' i value (S bitfield)
      else ret bitfield
  end.
End Loops.

Definition banner : text :=
  str "|    Byte 0    |   Byte 1     |    Byte 2    |    Byte 3    |    |    Byte 0    |   Byte 1     |    Byte 2    |    Byte 3    |".

Definition separator : text :=
  str "|-----------------------------------------------------------|    |-----------------------------------------------------------|".

(** ** The user-space program (pci_header.c) *)

Module User.
Local Open Scope monad_scope.

Definition PCI_CFG_ADDR : Z := 0xCF8.
Definition PCI_CFG_DATA : Z := 0xCFC.
Definition PCI_CFGTAG_ENABLE : Z := 0x80000000.
Definition PCI_HEADER_TYPE : Z := 0x0e.

Definition PCI_CFGTAG (bus dev func reg : Z) : Z :=
  Z.lor (Z.lor (Z.lor (Z.lor PCI_CFGTAG_ENABLE (Z.shiftl bus 16))
                      (Z.shiftl dev 11))
               (Z.shiftl func 8))
        reg.

(** The process and the hardware it talks to: the configuration dword
    behind every value of the index register, the value latched in the
    index register at port 0xCF8, and what was written to standard
    output. *)
Record machine := Machine {
  cfg : Z → Z;
  cf8 : Z;
  stdout : text
}.

Definition put (t : text) (m : machine) : machine :=
  Machine (cfg m) (cf8 m) (stdout m ++ t).

Definition printf (t : text) : M machine unit := emit put t.
Definition putchar (c : ascii) : M machine unit := emit put [c].

(** Only the two ports of the configuration mechanism are modelled. *)
Definition outl (value port : Z) : M machine unit :=
  λ m, if port =? PCI_CFG_ADDR
       then Some (tt, Machine (cfg m) (wrap32 value) (stdout m))
       else None.

Definition inl (port : Z) : M machine Z :=
  λ m, if port =? PCI_CFG_DATA
       then Some (wrap32 (cfg m (cf8 m)), m)
       else None.

Definition pci_cfg_reg_read_byte (bus dev func reg : Z) : M machine Z :=
  let address := wrap32 (PCI_CFGTAG bus dev func (Z.land reg 0xFC)) in
  outl address PCI_CFG_ADDR;;
  v <- inl PCI_CFG_DATA;;
  ret (Z.land (Z.shiftr v (Z.land reg 3 * 8)) 0xFF).

Definition pci_cfg_reg_read_dword (bus dev func reg : Z) : M machine Z :=
  let address := wrap32 (PCI_CFGTAG bus dev func (Z.land reg 0xFC)) in
  outl address PCI_CFG_ADDR;;
  inl PCI_CFG_DATA.

Definition pci_cfg_reg_read_header_type (bus dev func : Z) : M machine Z :=
  pci_cfg_reg_read_byte bus dev func PCI_HEADER_TYPE.

(** [for (i=0; i<0x40; i+=4) { ... }]; [fuel] bounds the number of
    iterations. *)
Fixpoint windows (fuel : nat) (ptr : list config_space_bitfield)
    (bus dev func : Z) (i : Z) (bitfield : nat) : M machine unit :=
  if i <? 0x40 then
    match fuel with
    | O => undefined
    | S fuel' =>
        let bf2 := bitfield in
        putchar "|";;
        _ <- label_loop put (drop bitfield ptr) i bitfield;;
        value <- pci_cfg_reg_read_dword bus dev func (i mod 256);;
        let bitfield := bf2 in
        printf (str "    |");;
        bitfield <- value_loop put (drop bitfield ptr) i value bitfield;;
        printf (str "    0x" ++ fmt_x 2 i ++ [newline]);;
        printf (separator ++ [newline]);;
        windows fuel' ptr bus dev func (wrap32 (i + 4)) bitfield
    end
  else ret tt.

(** ["Selected device %x:%x:%x is a"] *)
Definition selected_device (bus dev func : Z) : text :=
  str "Selected device " ++ fmt_x 1 bus ++ str ":" ++ fmt_x 1 dev
    ++ str ":" ++ fmt_x 1 func ++ str " is a".

Definition print_pci_header (bus dev func : Z) : M machine unit :=
  header_type <- pci_cfg_reg_read_header_type bus dev func;;
  if negb (header_type =? 0) && negb (header_type =? 1) then
    printf (str "Unknown PCI header type: " ++ fmt_x 1 header_type
              ++ [newline]);;
    printf (selected_device bus dev func ++ str "n unknown type"
              ++ [newline])
  else
    ptr <- lift (types !! Z.to_nat header_type);;
    ctype <- lift (ctypes !! Z.to_nat header_type);;
    printf (selected_device bus dev func ++ str ctype ++ [newline]);;
    printf (banner ++ [newline]);;
    printf (separator ++ str "    Address" ++ [newline]);;
    windows 16 ptr bus dev func 0 0.
End User.

(** ** The kernel module (pci_dev.c) *)

Module Kernel.
Local Open Scope monad_scope.

(** The fields of [struct pci_dev] that the function reads, and the
    configuration space behind [pci_read_config_dword]. *)
Record pci_dev := PciDev {
  hdr_type : Z;
  bus_number : Z;
  devfn : Z;
  config : Z → Z
}.

(** The kernel log: a list of records, oldest first.  [pr_info] opens a
    record; [pr_cont] continues the last one. *)
Definition klog := list text.

Definition info (t : text) (log : klog) : klog := log ++ [t].

Definition cont (t : text) (log : klog) : klog :=
  match reverse log with
  | [] => [t]
  | r :: older => reverse older ++ [r ++ t]
  end.

Definition pr_info (t : text) : M klog unit := emit info t.
Definition pr_cont (t : text) : M klog unit := emit cont t.

Definition pci_read_config_dword (pdev : pci_dev) (where_ : Z) : M klog Z :=
  ret (wrap32 (config pdev where_)).

Fixpoint windows (fuel : nat) (ptr : list config_space_bitfield)
    (pdev : pci_dev) (i : Z) (bitfield : nat) : M klog unit :=
  if i <? 0x40 then
    match fuel with
    | O => undefined
    | S fuel' =>
        let bf2 := bitfield in
        pr_info (str "|");;
        _ <- label_loop cont (drop bitfield ptr) i bitfield;;
        value <- pci_read_config_dword pdev i;;
        let bitfield := bf2 in
        pr_cont (str "    |");;
        bitfield <- value_loop cont (drop bitfield ptr) i value bitfield;;
        pr_cont (str "    0x" ++ fmt_x 2 i);;
        pr_info (separator ++ [newline]);;
        windows fuel' ptr pdev (wrap32 (i + 4)) bitfield
    end
  else ret tt.

Definition selected_device (pdev : pci_dev) : text :=
  str "Selected device " ++ fmt_x 1 (bus_number pdev) ++ str ":"
    ++ fmt_x 1 (Z.land (devfn pdev) 0xF8) ++ str ":"
    ++ fmt_x 1 (Z.land (devfn pdev) 0x07) ++ str " is a".

(** [pdev] is a pointer: [None] is [NULL].  [header_type] is a [u8]. *)
Definition print_pci_header (pdev : option pci_dev) : M klog unit :=
  match pdev with
  | None => ret tt
  | Some pdev =>
      let header_type := hdr_type pdev mod 256 in
      ptr <- lift (types !! Z.to_nat header_type);;
      ctype <- lift (ctypes !! Z.to_nat header_type);;
      pr_info (selected_device pdev ++ str ctype ++ [newline]);;
      pr_info (banner ++ [newline]);;
      pr_info (separator ++ str "    Address" ++ [newline]);;
      windows 16 ptr pdev 0 0
  end.
End Kernel.

(** ** Sample devices *)

(** The endpoint 10b5:1009 whose dump is recorded in both sources. *)
Definition sample_endpoint (reg : Z) : Z :=
  if reg =? 0x00 then 0x100910B5 else
  if reg =? 0x04 then 0x00100007 else
  if reg =? 0x08 then 0x088000B0 else
  if reg =? 0x0C then 0x00000008 else
  if reg =? 0x10 then 0xC2000000 else
  if reg =? 0x2C then 0x978110B5 else
  if reg =? 0x34 then 0x00000040 else
  if reg =? 0x3C then 0x000001FF else 0.

Definition sample_machine : User.machine :=
  User.Machine (λ tag, sample_endpoint (Z.land tag 0xFC)) 0 [].

(** ** Vocabulary of the statements *)

(** The digit that [letters] holds for a nibble. *)
Definition letter (n : Z) : ascii :=
  default "0"%char (letters !! Z.to_nat n).

(** The nibble that an upper-case digit stands for. *)
Definition digit_value (c : ascii) : Z :=
  Z.of_nat (default 0%nat (fst <$> list_find (λ d, d = c) letters)).

(** The number that a string of digits denotes in base 16, most significant
    digit first. *)
Definition hex_value (ds : text) : Z :=
  foldl (λ acc c, 16 * acc + digit_value c) 0 ds.

Definition upper_hex (c : ascii) : Prop := c ∈ letters.

(** The [n] low nibbles of [v] as upper-case digits, most significant
    first: what a field of [n] digits, padded with zeros, shows of [v]. *)
Fixpoint hex_fixed (n : nat) (v : Z) : text :=
  match n with
  | O => []
  | S n' => hex_fixed n' (v / 16) ++ [letter (v mod 16)]
  end.

(** *** The layout invariant, as the specification states it *)

(** The specs that precede the width-5 sentinel. *)
Fixpoint before_sentinel (ptr : list config_space_bitfield)
  : list config_space_bitfield :=
  match ptr with
  | [] => []
  | bf :: ptr' => if bf_size bf =? 5 then [] else bf :: before_sentinel ptr'
  end.

(** Sorted ascending by offset. *)
Fixpoint ascending (l : list config_space_bitfield) : bool :=
  match l with
  | a :: (b :: _) as l' => (bf_offset a <=? bf_offset b) && ascending l'
  | _ => true
  end.

(** [offset_i + width_i ≤ offset_{i+1}]. *)
Fixpoint no_overlap (l : list config_space_bitfield) : bool :=
  match l with
  | a :: (b :: _) as l' =>
      (bf_offset a + bf_size a <=? bf_offset b) && no_overlap l'
  | _ => true
  end.

(** Byte [b] lies in the span of a spec of [l]. *)
Definition covered (l : list config_space_bitfield) (b : Z) : bool :=
  existsb (λ bf, (bf_offset bf <=? b) && (b <? bf_offset bf + bf_size bf)) l.

(** The bytes of [[0, 0x40)] that no span holds. *)
Definition gaps (l : list config_space_bitfield) : list Z :=
  filter (λ b, covered l b = false) (seqZ 0 0x40).

(** The pairs of neighbours whose spans overlap. *)
Fixpoint overlaps (l : list config_space_bitfield)
  : list (config_space_bitfield * config_space_bitfield) :=
  match l with
  | a :: (b :: _) as l' =>
      if bf_offset a + bf_size a <=? bf_offset b
      then overlaps l' else (a, b) :: overlaps l'
  | _ => []
  end.

(** A layout with "Class Code" moved to offset 0x9, where the register
    definitions of [pci_header.c] place the class bytes. *)
Definition class_code_at_9 (ptr : list config_space_bitfield)
  : list config_space_bitfield :=
  <[5%nat := Bitfield "Class Code" 0x9 3]> ptr.

(** *** Decoded fields *)

(** The value that the decoder extracts for the field called [name] of a
    layout, from the dword [raw] of window [w]. *)
Definition field_value (ptr : list config_space_bitfield) (name : string)
    (w raw : Z) : option Z :=
  '(_, bf) ← list_find (λ bf, bf_name bf = name) ptr;
  bitfield_value bf w raw.

(** A print primitive that only collects the text. *)
Definition collect (t : text) (out : text) : text := out ++ t.

(** *** Lines *)

(** A text that holds no line terminator. *)
Definition is_line (t : text) : Prop := newline ∉ t.

(** The text made of the given lines, each one terminated. *)
Definition unlines (ls : list text) : text :=
  concat ((λ l, l ++ [newline]) <$> ls).

(** *** Rows *)

(** The label cells and the value cells of a run of specs. *)
Definition label_row (run : list config_space_bitfield) : text :=
  concat (label_cell <$> run).

Definition value_row (run : list config_space_bitfield) (i value : Z) : text :=
  concat ((λ bf, default [] (value_cell bf i value)) <$> run).

(** A loop over the window based at [i] stops in front of [rest]. *)
Definition stops_label (i : Z) (rest : list config_space_bitfield) : Prop :=
  match rest with
  | [] => False
  | bf :: _ => wrap32 (i + 4) ≤ bf_offset bf
  end.

Definition stops_value (i : Z) (rest : list config_space_bitfield) : Prop :=
  match rest with
  | [] => False
  | bf :: _ => wrap32 (i + 4) ≤ bf_offset bf ∨ bf_size bf = 5
  end.

(** *** Windows *)

(** The run of the window based at [i]: the specs at the cursor that start
    before the end of the window, and the specs that follow them. *)
Fixpoint split_run (i : Z) (rest : list config_space_bitfield)
  : list config_space_bitfield * list config_space_bitfield :=
  match rest with
  | [] => ([], [])
  | bf :: rest' =>
      if bf_offset bf <? i + 4
      then (bf :: (split_run i rest').1, (split_run i rest').2)
      else ([], rest)
  end.

(** A spec that may be decoded in the window based at [i]. *)
Definition field_ok (i : Z) (bf : config_space_bitfield) : bool :=
  (1 <=? bf_size bf) && (bf_size bf <=? 4) && (i <=? bf_offset bf)
  && bool_decide (newline ∉ str (bf_name bf)).

(** The [n] windows from [i] on decode cleanly with the cursor at [rest]:
    every run holds decodable specs and is followed by a further spec. *)
Fixpoint windows_ok (n : nat) (i : Z) (rest : list config_space_bitfield)
  : bool :=
  match n with
  | O => true
  | S n' =>
      forallb (field_ok i) (split_run i rest).1
      && match (split_run i rest).2 with [] => false | _ :: _ => true end
      && windows_ok n' (i + 4) (split_run i rest).2
  end.

(** The line of one window: label cells, value cells, address. *)
Definition window_row (run : list config_space_bitfield) (i value : Z) : text :=
  str "|" ++ label_row run ++ str "    |" ++ value_row run i value
    ++ str "    0x" ++ fmt_x 2 i.

Fixpoint table_rows (n : nat) (i : Z) (rest : list config_space_bitfield)
    (read : Z → Z) : list text :=
  match n with
  | O => []
  | S n' =>
      window_row (split_run i rest).1 i (read i)
        :: table_rows n' (i + 4) (split_run i rest).2 read
  end.

(** What the index register holds after a read of register [reg], and the
    dword that the hardware [c] then returns. *)
Definition config_tag (bus dev func reg : Z) : Z :=
  wrap32 (wrap32 (User.PCI_CFGTAG bus dev func (Z.land reg 0xFC))).

Definition dword_of (c : Z → Z) (bus dev func i : Z) : Z :=
  wrap32 (c (config_tag bus dev func (i mod 256))).

(** The header type that [print_pci_header] reads. *)
Definition header_type_of (c : Z → Z) (bus dev func : Z) : Z :=
  Z.land (Z.shiftr (dword_of c bus dev func 0x0C) 16) 0xFF.

(** *** The sentinel *)

(** [p] is the beginning of [t]; [p] occurs somewhere in [t]. *)
Fixpoint starts_with (p t : text) : bool :=
  match p, t with
  | [], _ => true
  | _ :: _, [] => false
  | a :: p', c :: t' => bool_decide (a = c) && starts_with p' t'
  end.

Fixpoint occurs (p t : text) : bool :=
  match t with
  | [] => starts_with p []
  | _ :: t' => starts_with p t || occurs p t'
  end.

(** The run of the window based at [i], in one pass. *)
Fixpoint run_of (i : Z) (rest : list config_space_bitfield)
  : list config_space_bitfield :=
  match rest with
  | [] => []
  | bf :: rest' => if bf_offset bf <? i + 4 then bf :: run_of i rest' else []
  end.

(** What the window number [k] finds with the cursor at [b]: the specs
    of its run start before 0x40, are not 5 wide and are not called "End",
    and their label cells do not show that name; the spec that follows
    the run belongs to a later window, and in the last window it is the
    last spec of the layout, the sentinel; unless the cursor has fallen
    behind the window, every spec of the run can be decoded. *)
Definition window_check (ptr : list config_space_bitfield) (k b : nat)
  : bool :=
  let i := 4 * Z.of_nat k in
  let run := run_of i (drop b ptr) in
  forallb (λ bf, (bf_offset bf <? 0x40) && negb (bf_size bf =? 5)
                 && negb (String.eqb (bf_name bf) "End")) run
  && negb (occurs (str "End") (label_row run))
  && match ptr !! (b + length run)%nat with
     | Some stop =>
         (i + 4 <=? bf_offset stop)
         && (negb (k =? 15)%nat
             || String.eqb (bf_name stop) "End" && (bf_offset stop =? 0x40)
                && (bf_size stop =? 5)
                && (b + length run =? length ptr - 1)%nat)
     | None => false
     end
  && match ptr !! b with
     | Some bf => negb (i <=? bf_offset bf) || forallb (field_ok i) run
     | None => true
     end.

(** *** The shape that the specification gives to the output *)

(** A banner line, a separator line and sixteen quartets of lines. *)
Definition quartet_table (out : text) : Prop :=
  ∃ (banner_line sep_line : text) (quartets : list (text * text * text * text)),
    length quartets = 16%nat
    ∧ out = unlines (banner_line :: sep_line
                       :: (quartets ≫= λ '(l, s1, v, s2), [l; s1; v; s2])).

(** *** Columns *)

(** The width of the column of a field: 14 characters per byte and one
    for each bar that the field spans. *)
Definition column_width (bf : config_space_bitfield) : Z :=
  15 * bf_size bf - 1.

(** The bytes that a run of specs declares. *)
Definition run_bytes (run : list config_space_bitfield) : Z :=
  foldr (λ bf acc, bf_size bf + acc) 0 run.

(** Every name of the run fits its column and the run fills the four
    bytes of a window. *)
Definition run_sized (run : list config_space_bitfield) : bool :=
  forallb (λ bf, strlen (str (bf_name bf)) <=? column_width bf) run
  && (run_bytes run =? 4).

Fixpoint windows_sized (n : nat) (i : Z) (rest : list config_space_bitfield)
  : bool :=
  match n with
  | O => true
  | S n' =>
      run_sized (split_run i rest).1
      && windows_sized n' (i + 4) (split_run i rest).2
  end.

(** ** The rest of the user-space program (pci_header.c) *)

Module UserMain.
Local Open Scope monad_scope.

Definition pci_cfg_reg_read_word (bus dev func reg : Z) : M User.machine Z :=
  let address := wrap32 (User.PCI_CFGTAG bus dev func (Z.land reg 0xFC)) in
  User.outl address User.PCI_CFG_ADDR;;
  v <- User.inl User.PCI_CFG_DATA;;
  ret (Z.land (Z.shiftr v (Z.land reg 2 * 8)) 0xFFFF).

(** The decimal digits of a natural number of at most [fuel] digits. *)
Fixpoint dec_digits (fuel : nat) (n : Z) : text :=
  match fuel with
  | O => []
  | S fuel' =>
      (if n <? 10 then [] else dec_digits fuel' (n / 10))
        ++ [default "0"%char (lower_digits !! Z.to_nat (n mod 10))]
  end.

(** [%d] on an [int]. *)
Definition fmt_d (n : Z) : text :=
  if n <? 0 then "-"%char :: dec_digits 10 (- n) else dec_digits 10 n.

(** [main].  The conversions of the arguments by [strtol] and the answers
    of [ioperm] belong to the C library and the kernel: [arg1] to [arg4]
    are the [long] values that [strtol] returns for [argv[1]] to
    [argv[4]], [perm_on] and [perm_off] are what the two calls of [ioperm]
    return.  The result is the exit status. *)
Definition main (argc : Z) (argv0 : string) (arg1 arg2 arg3 arg4 : Z)
    (perm_on perm_off : Z) : M User.machine Z :=
  if negb (argc =? 4) && negb (argc =? 5) then
    User.printf (str "Need 4 or 5 arguments, supplied: " ++ fmt_d argc
                   ++ [newline]);;
    ret (-1)
  else
    let bus := arg1 mod 256 in
    let dev := arg2 mod 256 in
    let func := arg3 mod 256 in
    User.printf (str argv0 ++ str " " ++ fmt_x 1 bus ++ str " "
                   ++ fmt_x 1 dev ++ str " " ++ fmt_x 1 func ++ [newline]);;
    if (255 <? bus) || (31 <? dev) || (7 <? func) then
      User.printf (str "Bad inputs for bus|dev|func" ++ [newline]);;
      ret (-1)
    else if negb (perm_on =? 0) then
      User.printf (str "Error requesting IO port access");;
      ret (-1)
    else
      User.print_pci_header bus dev func;;
      (if argc =? 5 then
         let reg := arg4 mod 256 in
         d <- User.pci_cfg_reg_read_dword bus dev func reg;;
         User.printf (str "reg " ++ fmt_x 2 reg ++ str ": " ++ fmt_x 8 d
                        ++ [newline]);;
         w <- pci_cfg_reg_read_word bus dev func reg;;
         User.printf (str "reg " ++ fmt_x 2 reg ++ str ": " ++ fmt_x 4 w
                        ++ [newline]);;
         b <- User.pci_cfg_reg_read_byte bus dev func reg;;
         User.printf (str "reg " ++ fmt_x 2 reg ++ str ": " ++ fmt_x 2 b
                        ++ [newline])
       else ret tt);;
      if negb (perm_off =? 0) then
        User.printf (str "Error requesting IO port access");;
        ret (-1)
      else ret 0.
End UserMain.

(** The dword that the hardware [c] returns for register [reg], whatever
    its low two bits. *)
Definition dword_of_tag (c : Z → Z) (bus dev func reg : Z) : Z :=
  wrap32 (c (config_tag bus dev func reg)).

(** The bridge 10b5:9781 whose dump is recorded in both sources. *)
Definition sample_bridge (reg : Z) : Z :=
  if reg =? 0x00 then 0x978110B5 else
  if reg =? 0x04 then 0x00100547 else
  if reg =? 0x08 then 0x060400B0 else
  if reg =? 0x0C then 0x00010008 else
  if reg =? 0x18 then 0x00261817 else
  if reg =? 0x1C then 0x000001F1 else
  if reg =? 0x20 then 0xC580C200 else
  if reg =? 0x24 then 0xFEF1F001 else
  if reg =? 0x28 then 0x000000D7 else
  if reg =? 0x2C then 0x000000D7 else
  if reg =? 0x34 then 0x00000040 else
  if reg =? 0x3C then 0x001301FF else 0.

Definition bridge_machine : User.machine :=
  User.Machine (λ tag, sample_bridge (Z.land tag 0xFC)) 0 [].

(** A function whose header type has the multi-function bit set. *)
Definition multifunction_machine : User.machine :=
  User.Machine (λ tag, if Z.land tag 0xFC =? 0x0C then 0x00800000 else 0) 0 [].

(** ** Module initialisation (pci_dev.c) *)

Module KernelInit.
Local Open Scope monad_scope.

(** The kernel log and the two globals of the module. *)
Record kstate := KState {
  log : Kernel.klog;
  my_pci_dev : option Kernel.pci_dev;
  my_pci_dev_bar0 : option Z
}.

(** The calls into the PCI core that may write records of their own to
    the kernel log; [pci_request_region] prints a warning when it fails. *)
Inductive core_call := GetDevice | EnableDevice | RequestRegion | Iomap.

(** What the PCI core answers: the device that [pci_get_device] finds
    ([None] is [NULL]), the status of [pci_enable_device] and of
    [pci_request_region], the length of BAR0, the address that
    [pci_iomap] returns, the text that [%p] prints for an address, and
    the records that the core itself logs during each call. *)
Record pci_core := PciCore {
  get_device : option Kernel.pci_dev;
  enable_device : Z;
  request_region : Z;
  resource_len : Z;
  iomap : option Z;
  show_pointer : option Z → text;
  logged : core_call → list text
}.

Definition on_log {A} (c : M Kernel.klog A) : M kstate A :=
  λ s, match c (log s) with
       | Some (a, l) => Some (a, KState l (my_pci_dev s) (my_pci_dev_bar0 s))
       | None => None
       end.

(** [pr_info] and [pr_err] differ in the level of the record only. *)
Definition pr_info (t : text) : M kstate unit := on_log (Kernel.pr_info t).
Definition pr_err (t : text) : M kstate unit := on_log (Kernel.pr_info t).

Definition set_my_pci_dev (d : option Kernel.pci_dev) : M kstate unit :=
  λ s, Some (tt, KState (log s) d (my_pci_dev_bar0 s)).

Definition set_my_pci_dev_bar0 (p : option Z) : M kstate unit :=
  λ s, Some (tt, KState (log s) (my_pci_dev s) p).

Definition get_my_pci_dev : M kstate (option Kernel.pci_dev) :=
  λ s, Some (my_pci_dev s, s).

(** The records that the core writes while it serves a call. *)
Definition core_log (core : pci_core) (c : core_call) : M kstate unit :=
  λ s, Some (tt, KState (log s ++ logged core c) (my_pci_dev s)
                   (my_pci_dev_bar0 s)).

Definition DRV_NAME : text := str "my-dev-drv".

(** The 64 bits of [n] read as a [long long]. *)
Definition to_long_long (n : Z) : Z :=
  if wrap64 n <? 2 ^ 63 then wrap64 n else wrap64 n - 2 ^ 64.

(** [%lld], given the 64-bit [bar0_size]. *)
Definition fmt_lld (n : Z) : text :=
  let v := to_long_long n in
  if v <? 0 then "-"%char :: UserMain.dec_digits 20 (- v)
  else UserMain.dec_digits 20 v.

(** [my_dev_init]; the result is the status that it returns. *)
Definition my_dev_init (core : pci_core) : M kstate Z :=
  pr_info (DRV_NAME ++ str "my_dev_init" ++ [newline]);;
  core_log core GetDevice;;
  set_my_pci_dev (get_device core);;
  dev <- get_my_pci_dev;;
  match dev with
  | None =>
      pr_err (DRV_NAME ++ str ": PCI adaptor not available" ++ [newline]);;
      ret (-1)
  | Some _ =>
      core_log core EnableDevice;;
      if negb (enable_device core =? 0) then
        pr_err (DRV_NAME ++ str ": PCI adaptor cannot be enabled"
                  ++ [newline]);;
        ret (-1)
      else
        on_log (Kernel.print_pci_header dev);;
        core_log core RequestRegion;;
        if negb (request_region core =? 0) then
          pr_err (DRV_NAME ++ str ": cannot request BAR0" ++ [newline]);;
          ret (-1)
        else
          let bar0_size := wrap64 (resource_len core) in
          core_log core Iomap;;
          set_my_pci_dev_bar0 (iomap core);;
          bar0 <- (λ s, Some (my_pci_dev_bar0 s, s));;
          pr_info (DRV_NAME ++ str ": my_pci_dev_bar0:"
                     ++ show_pointer core bar0 ++ str ", size:"
                     ++ fmt_lld bar0_size ++ [newline]);;
          pr_info (DRV_NAME ++ str ": my_dev_init done" ++ [newline]);;
          ret 0
  end.
End KernelInit.

(** The recorded endpoint as the kernel sees it, a PCI core that finds
    it and grants everything, and one that finds BAR0 taken: it answers
    [-EBUSY] and logs its warning. *)
Definition sample_pdev : Kernel.pci_dev :=
  Kernel.PciDev 0 0x26 0 sample_endpoint.

Definition sample_core : KernelInit.pci_core :=
  KernelInit.PciCore (Some sample_pdev) 0 0 8388608 (Some 0x4e78d58e)
    (λ _, str "000000004e78d58e") (λ _, []).

Definition busy_core : KernelInit.pci_core :=
  KernelInit.PciCore (Some sample_pdev) 0 (-16) 8388608 None
    (λ _, str "0000000000000000")
    (λ c, match c with
          | KernelInit.RequestRegion =>
              [str "my-dev-drv 0000:26:00.0: BAR 0: can't reserve [mem 0xc2000000-0xc27fffff]"
                 ++ [newline]]
          | _ => []
          end).

(** * Properties *)

(** ** int_2_hexstr *)

Example int_2_hexstr_class : int_2_hexstr 0x000880 3 = str "0x000880".
Proof. reflexivity. Qed.

Example int_2_hexstr_cut : int_2_hexstr 0x12345678 1 = str "0x78".
Proof. reflexivity. Qed.

Lemma nibble_cases (n : Z) :
  0 ≤ n < 16 →
  n = 0 ∨ n = 1 ∨ n = 2 ∨ n = 3 ∨ n = 4 ∨ n = 5 ∨ n = 6 ∨ n = 7 ∨
  n = 8 ∨ n = 9 ∨ n = 10 ∨ n = 11 ∨ n = 12 ∨ n = 13 ∨ n = 14 ∨ n = 15.
Proof. lia. Qed.

Lemma letter_upper_hex (n : Z) : 0 ≤ n < 16 → upper_hex (letter n).
Proof.
  intros Hn. unfold upper_hex.
  destruct (nibble_cases n Hn) as
    [->|[->|[->|[->|[->|[->|[->|[->|[->|[->|[->|[->|[->|[->|[->| ->]]]]]]]]]]]]]]];
    vm_compute; apply list_elem_of_In; simpl; tauto.
Qed.

Lemma digit_value_letter (n : Z) : 0 ≤ n < 16 → digit_value (letter n) = n.
Proof.
  intros Hn.
  destruct (nibble_cases n Hn) as
    [->|[->|[->|[->|[->|[->|[->|[->|[->|[->|[->|[->|[->|[->|[->| ->]]]]]]]]]]]]]]];
    reflexivity.
Qed.

Lemma strcat_zeros_replicate (n : nat) (d : text) :
  strcat_zeros n d = d ++ replicate (2 * n) "0"%char.
Proof.
  revert d. induction n as [|n IH]; intros d; simpl.
  - by rewrite app_nil_r.
  - rewrite IH, <- app_assoc. f_equal.
    replace (n + S (n + 0))%nat with (S (2 * n)) by lia.
    reflexivity.
Qed.

Lemma hex_fixed_zero (n : nat) : hex_fixed n 0 = replicate n "0"%char.
Proof.
  induction n as [|n IH]; [done|].
  rewrite replicate_S_end. simpl. rewrite Zdiv_0_l, IH. reflexivity.
Qed.

Lemma length_hex_fixed (n : nat) (v : Z) : length (hex_fixed n v) = n.
Proof.
  revert v. induction n as [|n IH]; intros v; simpl; [done|].
  rewrite length_app, IH. simpl. lia.
Qed.

Lemma hex_fixed_upper (n : nat) (v : Z) : Forall upper_hex (hex_fixed n v).
Proof.
  revert v. induction n as [|n IH]; intros v; simpl; [constructor|].
  apply Forall_app. split; [apply IH|].
  constructor; [|constructor].
  apply letter_upper_hex, Z.mod_pos_bound. lia.
Qed.

Lemma hex_value_snoc (ds : text) (c : ascii) :
  hex_value (ds ++ [c]) = 16 * hex_value ds + digit_value c.
Proof. unfold hex_value. by rewrite foldl_app. Qed.

Lemma hex_value_fixed (n : nat) (v : Z) :
  hex_value (hex_fixed n v) = v mod 16 ^ Z.of_nat n.
Proof.
  revert v. induction n as [|n IH]; intros v.
  - simpl. by rewrite Z.mod_1_r.
  - simpl hex_fixed. rewrite hex_value_snoc, IH.
    rewrite digit_value_letter by (apply Z.mod_pos_bound; lia).
    rewrite Nat2Z.inj_succ, Z.pow_succ_r by lia.
    rewrite Z.rem_mul_r by lia. lia.
Qed.

Lemma copy_value_step (i : nat) (v : Z) (d : text) :
  copy_value (S i) v d
  = if (0 <? v) && (1 <? Z.of_nat (S i))
    then copy_value i (Z.shiftr v 4) (<[S i := letter (Z.land v 0xf)]> d)
    else d.
Proof. reflexivity. Qed.

(** The loop of [int_2_hexstr], entered with index [1 + k] on a buffer
    whose [k] digits before [tail] are still ['0'], leaves there the [k] low
    nibbles of the value. *)
Lemma copy_value_fixed (k : nat) (v : Z) (tail : text) :
  0 ≤ v →
  copy_value (S k) v (str "0x" ++ replicate k "0"%char ++ tail)
  = str "0x" ++ hex_fixed k v ++ tail.
Proof.
  revert v tail. induction k as [|k IH]; intros v tail Hv.
  - simpl. by rewrite andb_false_r.
  - rewrite replicate_S_end, <- (app_assoc _ ["0"%char]).
    rewrite copy_value_step.
    destruct (0 <? v) eqn:Hpos; cbn [andb].
    + assert ((1 <? Z.of_nat (S (S k))) = true) as -> by (apply Z.ltb_lt; lia).
      rewrite (app_assoc (str "0x")).
      replace (S (S k)) with (length (str "0x" ++ replicate k "0"%char) + 0)%nat
        by (rewrite length_app, length_replicate; simpl; lia).
      rewrite insert_app_r. cbn [app list_insert insert].
      rewrite <- app_assoc, IH by (apply Z.shiftr_nonneg; lia).
      cbn [hex_fixed]. rewrite <- app_assoc. cbn [app].
      rewrite (Z.shiftr_div_pow2 v 4) by lia.
      change (Z.land v 15) with (Z.land v (Z.ones 4)).
      rewrite Z.land_ones by lia. reflexivity.
    + assert (v = 0) as -> by lia.
      cbn [hex_fixed]. rewrite Zdiv_0_l, hex_fixed_zero, <- app_assoc.
      reflexivity.
Qed.

(** [int_2_hexstr] is the prefix ["0x"] and the [2*size] low nibbles of the
    value. *)
Lemma int_2_hexstr_fixed (value size : Z) :
  0 ≤ size < 2 ^ 30 →
  int_2_hexstr value size
  = str "0x" ++ hex_fixed (2 * Z.to_nat size) (wrap32 value).
Proof.
  intros Hs. unfold int_2_hexstr.
  rewrite strcat_zeros_replicate.
  assert (Z.to_nat (wrap32 (2 + 2 * size - 1)) = S (2 * Z.to_nat size)) as ->.
  { unfold wrap32. rewrite Z.mod_small by lia. lia. }
  pose proof (copy_value_fixed (2 * Z.to_nat size) (wrap32 value) []) as H.
  rewrite !app_nil_r in H. apply H.
  apply Z.mod_pos_bound. lia.
Qed.

(** C5: for a field of 1 to 4 bytes and any 32-bit value, the string that
    [int_2_hexstr] produces is ["0x"] followed by exactly [2*size]
    upper-case hexadecimal digits, which denote the value cut to its
    [2*size] low nibbles: short values are padded with zeros on the left
    and no digit beyond the field is written; a 3-byte field holding
    0x000880 reads ["0x000880"]. *)
Theorem int_2_hexstr_exact (value size : Z) :
  1 ≤ size ≤ 4 →
  0 ≤ value < 2 ^ 32 →
  (∃ digits : text,
      int_2_hexstr value size = str "0x" ++ digits
      ∧ strlen digits = 2 * size
      ∧ Forall upper_hex digits
      ∧ hex_value digits = value mod 16 ^ (2 * size))
  ∧ int_2_hexstr 0x000880 3 = str "0x000880".
Proof.
  intros Hs Hv. split; [|reflexivity].
  exists (hex_fixed (2 * Z.to_nat size) value). split_and!.
  - rewrite int_2_hexstr_fixed by lia.
    unfold wrap32. by rewrite Z.mod_small.
  - unfold strlen. rewrite length_hex_fixed. lia.
  - apply hex_fixed_upper.
  - rewrite hex_value_fixed. f_equal. f_equal. lia.
Qed.

Lemma int_2_hexstr_exact_witness :
  (∃ digits : text,
      int_2_hexstr 0x12345678 2 = str "0x" ++ digits
      ∧ strlen digits = 2 * 2
      ∧ Forall upper_hex digits
      ∧ hex_value digits = 0x12345678 mod 16 ^ (2 * 2))
  ∧ int_2_hexstr 0x000880 3 = str "0x000880".
Proof. apply (int_2_hexstr_exact 0x12345678 2); lia. Defined.

(** ** Field extraction *)

Lemma land_u32 (raw m : Z) : 0 ≤ raw < 2 ^ 32 → 0 ≤ Z.land raw m < 2 ^ 32.
Proof.
  intros Hraw.
  rewrite <- (Z.mod_small raw (2 ^ 32)) by lia.
  rewrite <- Z.land_ones by lia.
  rewrite <- Z.land_assoc, (Z.land_comm (Z.ones 32)), Z.land_assoc.
  rewrite Z.land_ones by lia.
  apply Z.mod_pos_bound. lia.
Qed.

Lemma shiftr_u32 (a n : Z) : 0 ≤ n → 0 ≤ a < 2 ^ 32 → 0 ≤ Z.shiftr a n < 2 ^ 32.
Proof.
  intros Hn Ha. rewrite Z.shiftr_div_pow2 by lia.
  assert (0 < 2 ^ n) by (apply Z.pow_pos_nonneg; lia).
  split; [apply Z.div_pos; lia|].
  apply Z.div_lt_upper_bound; nia.
Qed.

(** Inside its window a field of 1 to 4 bytes has a defined mask, built
    without overflow. *)
Lemma bitfield_mask_defined (bf : config_space_bitfield) (w : Z) :
  1 ≤ bf_size bf ≤ 4 →
  w ≤ bf_offset bf < w + 4 →
  bitfield_shift bf w = 8 * (bf_offset bf - w)
  ∧ bitfield_mask bf w
    = Some (Z.shiftl (Z.shiftl 1 (bf_size bf * 8) - 1)
                     (8 * (bf_offset bf - w)))
  ∧ 0 ≤ Z.shiftl (Z.shiftl 1 (bf_size bf * 8) - 1) (8 * (bf_offset bf - w))
      < 2 ^ 56.
Proof.
  destruct bf as [n o s]; cbn [bf_size bf_offset]. intros Hs Ho.
  unfold bitfield_mask, bitfield_shift; cbn [bf_size bf_offset].
  assert (∃ d, o - w = d ∧ (d = 0 ∨ d = 1 ∨ d = 2 ∨ d = 3)) as (d & -> & Hd)
    by (exists (o - w); lia).
  assert (s = 1 ∨ s = 2 ∨ s = 3 ∨ s = 4) as [->|[->|[->| ->]]] by lia;
    destruct Hd as [->|[->|[->| ->]]]; vm_compute; intuition congruence.
Qed.

(** The extracted value is the [size] bytes of the dword that start at the
    field's byte within the window, low byte first. *)
Lemma extract_bytes (raw k n : Z) :
  0 ≤ k → 0 ≤ n →
  Z.shiftr (Z.land raw (Z.shiftl (Z.shiftl 1 k - 1) n)) n
  = (raw / 2 ^ n) mod 2 ^ k.
Proof.
  intros Hk Hn.
  rewrite Z.shiftr_land, Z.shiftr_shiftl_l, Z.sub_diag, Z.shiftl_0_r by lia.
  rewrite Z.shiftl_1_l, Z.sub_1_r, <- Z.ones_equiv.
  rewrite Z.land_ones, Z.shiftr_div_pow2 by lia.
  reflexivity.
Qed.

(** The extraction of a field of 1 to 4 bytes inside its window. *)
Lemma bitfield_value_in_window (bf : config_space_bitfield) (w raw : Z) :
  1 ≤ bf_size bf ≤ 4 →
  w ≤ bf_offset bf < w + 4 →
  0 ≤ raw < 2 ^ 32 →
  bitfield_value bf w raw
  = Some (Z.shiftr
            (Z.land raw (Z.shiftl (Z.shiftl 1 (bf_size bf * 8) - 1)
                                  (8 * (bf_offset bf - w))))
            (8 * (bf_offset bf - w))).
Proof.
  intros Hs Ho Hraw.
  destruct (bitfield_mask_defined bf w Hs Ho) as (Hsh & Hm & Hb).
  unfold bitfield_value. rewrite Hm, Hsh. cbn [mbind option_bind].
  unfold shr_u64.
  assert ((0 <=? 8 * (bf_offset bf - w)) && (8 * (bf_offset bf - w) <? 64)
          = true) as ->.
  { apply andb_true_iff. rewrite Z.leb_le, Z.ltb_lt. lia. }
  cbn [mbind option_bind]. f_equal.
  unfold wrap32. apply Z.mod_small.
  apply shiftr_u32; [lia|]. by apply land_u32.
Qed.

(** C1: for every window base [w] (0x00, 0x04, ..., 0x3C in the renderer)
    and every field of 1 to 4 bytes whose offset lies in [[w, w+4)], the
    decoder's mask is
    [((1 << (size*8)) - 1) << (8*(offset - w))]: its construction in [long]
    is defined and the result stays below 2^56, so neither the [long] nor
    the 64-bit [mask] overflows; the field value is
    [(raw & mask) >> (8*(offset - w))], which the 32-bit [bf_value] holds
    without loss. *)
Theorem bitfield_value_mask_shift (bf : config_space_bitfield) (w raw : Z) :
  1 ≤ bf_size bf ≤ 4 →
  w ≤ bf_offset bf < w + 4 →
  0 ≤ raw < 2 ^ 32 →
  let shift := 8 * (bf_offset bf - w) in
  let mask := Z.shiftl (Z.shiftl 1 (bf_size bf * 8) - 1) shift in
  bitfield_mask bf w = Some mask
  ∧ 0 ≤ mask < 2 ^ 56
  ∧ bitfield_value bf w raw = Some (Z.shiftr (Z.land raw mask) shift).
Proof.
  intros Hs Ho Hraw shift mask. subst mask shift.
  destruct (bitfield_mask_defined bf w Hs Ho) as (_ & Hm & Hb).
  split_and!; [done|lia|lia|].
  by apply bitfield_value_in_window.
Qed.

Lemma bitfield_value_mask_shift_witness :
  bitfield_mask (Bitfield "Class Code" 0xA 3) 8 = Some 0xFFFFFF0000
  ∧ 0 ≤ 0xFFFFFF0000 < 2 ^ 56
  ∧ bitfield_value (Bitfield "Class Code" 0xA 3) 8 0x088000B0 = Some 0x0880.
Proof.
  apply (bitfield_value_mask_shift (Bitfield "Class Code" 0xA 3) 8 0x088000B0);
    cbn [bf_size bf_offset]; first [reflexivity | lia].
Defined.

(** A 4-byte mask moved up by 24 bits needs more than 32 bits. *)
Example mask_needs_64_bits :
  bitfield_mask (Bitfield "" 3 4) 0 = Some 0xFFFFFFFF000000.
Proof. reflexivity. Qed.

(** ** The layout tables *)

Lemma layouts_share_prefix : take 12 type_0_header = take 12 type_1_header.
Proof. reflexivity. Qed.

(** C2 (the tables break the stated invariant): in both layouts the specs
    before the sentinel are sorted by offset, but "Class Code" is declared
    at offset 0xA with 3 bytes, so its span runs into "Cache Line S" at 0xC
    and byte 0x09 belongs to no span.  These are the only overlap and the
    only gap. *)
Theorem layout_class_code_span (ptr : list config_space_bitfield) :
  ptr ∈ types →
  ascending (before_sentinel ptr) = true
  ∧ no_overlap (before_sentinel ptr) = false
  ∧ overlaps (before_sentinel ptr)
    = [(Bitfield "Class Code" 0xA 3, Bitfield "Cache Line S" 0xC 1)]
  ∧ covered (before_sentinel ptr) 0x09 = false
  ∧ gaps (before_sentinel ptr) = [0x09].
Proof.
  intros Hptr. unfold types in Hptr.
  apply list_elem_of_In in Hptr. simpl in Hptr.
  destruct Hptr as [<-|[<-|[]]]; vm_compute; auto.
Qed.

Lemma layout_class_code_span_witness :
  ascending (before_sentinel type_0_header) = true
  ∧ no_overlap (before_sentinel type_0_header) = false
  ∧ overlaps (before_sentinel type_0_header)
    = [(Bitfield "Class Code" 0xA 3, Bitfield "Cache Line S" 0xC 1)]
  ∧ covered (before_sentinel type_0_header) 0x09 = false
  ∧ gaps (before_sentinel type_0_header) = [0x09].
Proof.
  apply (layout_class_code_span type_0_header).
  apply list_elem_of_In. simpl. auto.
Defined.

(** With "Class Code" at 0x9 both layouts are sorted, free of overlaps and
    cover the 64 bytes. *)
Example layout_invariant_class_code_at_9 :
  Forall (λ ptr,
            ascending (before_sentinel (class_code_at_9 ptr)) = true
            ∧ no_overlap (before_sentinel (class_code_at_9 ptr)) = true
            ∧ gaps (before_sentinel (class_code_at_9 ptr)) = [])
         types.
Proof. repeat constructor. Qed.

(** ** Decoding one window *)

(** C4, as stated, fails: the dword 0x26181817 does not decode to
    Sub. Bus = 0x26 and Sec Lat timer = 0x00. *)
Lemma bridge_bus_window_as_stated_fails :
  ¬ (field_value type_1_header "Primary Bus" 0x18 0x26181817 = Some 0x17
     ∧ field_value type_1_header "Secondary Bus" 0x18 0x26181817 = Some 0x18
     ∧ field_value type_1_header "Sub. Bus" 0x18 0x26181817 = Some 0x26
     ∧ field_value type_1_header "Sec Lat timer" 0x18 0x26181817 = Some 0x00).
Proof. vm_compute. intros (_ & _ & H & _). discriminate H. Qed.

(** C4 (amended): with the Type-1 layout, the dword 0x26181817 of the
    window at 0x18 decodes, low byte first and one byte each, to
    Primary Bus = 0x17, Secondary Bus = 0x18, Sub. Bus = 0x18 and
    Sec Lat timer = 0x26, and the value row shows them in that order.  The
    values 0x17, 0x18, 0x26, 0x00 of the recorded bridge dump are those of
    the dword 0x00261817. *)
Theorem bridge_bus_window_decoded :
  field_value type_1_header "Primary Bus" 0x18 0x26181817 = Some 0x17
  ∧ field_value type_1_header "Secondary Bus" 0x18 0x26181817 = Some 0x18
  ∧ field_value type_1_header "Sub. Bus" 0x18 0x26181817 = Some 0x18
  ∧ field_value type_1_header "Sec Lat timer" 0x18 0x26181817 = Some 0x26
  ∧ value_loop collect (drop 12 type_1_header) 0x18 0x26181817 12 []
    = Some (16%nat,
            str "     0x17     |     0x18     |     0x18     |     0x26     |")
  ∧ value_loop collect (drop 12 type_1_header) 0x18 0x00261817 12 []
    = Some (16%nat,
            str "     0x17     |     0x18     |     0x26     |     0x00     |").
Proof. vm_compute. auto 10. Qed.

(** C6 (the value row is not centred by the stated rule): the left padding
    of a value is computed from [2 + size], not from the length
    [2 + 2*size] of the string that is printed.  A 2-byte field gets 12
    blanks on the left and 11 on the right, where the rule of the label row
    applied to the 6 characters of the string gives 11 on the left. *)
Theorem value_cell_padding_two_bytes :
  value_cell (Bitfield "Vendor ID" 0x0 2) 0 0x100910B5
  = Some (replicate 12 " "%char ++ str "0x10B5" ++ replicate 11 " "%char
            ++ str "|")
  ∧ value_space_available (Bitfield "Vendor ID" 0x0 2) = 29
  ∧ strlen (int_2_hexstr 0x10B5 2) = 6
  ∧ value_padding (Bitfield "Vendor ID" 0x0 2) = 12
  ∧ (29 - strlen (int_2_hexstr 0x10B5 2)) / 2 = 11
  ∧ label_cell (Bitfield "Status" 0x6 2)
    = replicate 11 " "%char ++ str "Status" ++ replicate 12 " "%char
        ++ str "|".
Proof. vm_compute. auto 10. Qed.

(** ** The checks before the layout is selected *)

(** C3 (the kernel copy does not validate the header type): for a device
    whose [hdr_type] is 2, [print_pci_header] of the kernel module goes
    straight to [types[header_type]], a read outside the two-element table;
    nothing rejects the value. *)
Theorem kernel_header_type_unchecked
    (bus devfn : Z) (config : Z → Z) (log : Kernel.klog) :
  types !! Z.to_nat 2 = None
  ∧ Kernel.print_pci_header (Some (Kernel.PciDev 2 bus devfn config)) log
    = None.
Proof. split; reflexivity. Qed.

(** C10: called with a NULL device, the kernel copy returns at once and the
    log is left as it was: no banner, no table line, no message. *)
Theorem kernel_null_device_silent (log : Kernel.klog) :
  Kernel.print_pci_header None log = Some (tt, log).
Proof. reflexivity. Qed.

(** ** Lines *)

Lemma is_line_app (a b : text) : is_line (a ++ b) ↔ is_line a ∧ is_line b.
Proof. apply not_elem_of_app. Qed.

Lemma is_line_alphabet (alphabet t : text) :
  newline ∉ alphabet → Forall (λ c, c ∈ alphabet) t → is_line t.
Proof.
  intros Hnl Hall Hin.
  rewrite Forall_forall in Hall. by apply Hnl, Hall.
Qed.

Lemma is_line_spaces (from to : Z) : is_line (spaces from to).
Proof.
  unfold is_line, spaces. intros Hin.
  apply elem_of_replicate_inv in Hin. discriminate Hin.
Qed.

Lemma is_line_concat (ls : list text) : Forall is_line ls → is_line (concat ls).
Proof.
  induction 1 as [|l ls Hl _ IH]; simpl.
  - apply not_elem_of_nil.
  - by apply is_line_app.
Qed.

Lemma lower_digit_default (n : nat) :
  default "0"%char (lower_digits !! n) ∈ lower_digits.
Proof.
  destruct (lower_digits !! n) as [c|] eqn:Hc; simpl.
  - by eapply list_elem_of_lookup_2.
  - compute_done.
Qed.

Lemma fmt_nibbles_alphabet (n : nat) (v : Z) :
  Forall (λ c, c ∈ lower_digits) (fmt_nibbles n v).
Proof.
  revert v. induction n as [|n IH]; intros v; simpl; [constructor|].
  apply Forall_app. split; [apply IH|].
  constructor; [apply lower_digit_default|constructor].
Qed.

Lemma strip_zeros_Forall (P : ascii → Prop) (minw : nat) (ds : text) :
  Forall P ds → Forall P (strip_zeros minw ds).
Proof.
  induction 1 as [|c ds Hc Hds IH]; simpl; [constructor|].
  destruct (bool_decide (c = "0"%char) && (minw <? S (length ds))%nat);
    [done|by constructor].
Qed.

Lemma is_line_fmt_x (minw : nat) (v : Z) : is_line (fmt_x minw v).
Proof.
  apply (is_line_alphabet lower_digits); [compute_done|].
  apply strip_zeros_Forall, fmt_nibbles_alphabet.
Qed.

Lemma is_line_int_2_hexstr (value size : Z) :
  0 ≤ size < 2 ^ 30 → is_line (int_2_hexstr value size).
Proof.
  intros Hs. rewrite int_2_hexstr_fixed by done.
  apply is_line_app. split; [compute_done|].
  apply (is_line_alphabet letters); [compute_done|].
  apply hex_fixed_upper.
Qed.

Lemma is_line_label_cell (bf : config_space_bitfield) :
  is_line (str (bf_name bf)) → is_line (label_cell bf).
Proof.
  intros Hname. unfold label_cell.
  rewrite !is_line_app. split_and!;
    [apply is_line_spaces|done|apply is_line_spaces|compute_done].
Qed.

Lemma is_line_value_cell (bf : config_space_bitfield) (i value : Z) (cell : text) :
  0 ≤ bf_size bf < 2 ^ 30 →
  value_cell bf i value = Some cell → is_line cell.
Proof.
  intros Hs. unfold value_cell.
  destruct (bitfield_value bf i value) as [v|]; [|done]. cbn [mbind option_bind].
  destruct (fits_str_value (bf_size bf)); [|done].
  intros [= <-].
  rewrite !is_line_app. split_and!;
    [apply is_line_spaces|by apply is_line_int_2_hexstr
    |apply is_line_spaces|compute_done].
Qed.

(** ** The field loops *)

Section LoopFacts.
Context {St : Type} (put : text → St → St).

Lemma label_loop_cons bf rest i b s :
  label_loop put (bf :: rest) i b s
  = if bf_offset bf <? wrap32 (i + 4)
    then label_loop put rest i (S b) (put (label_cell bf) s)
    else Some (b, s).
Proof. cbn [label_loop]. by destruct (bf_offset bf <? wrap32 (i + 4)). Qed.

Lemma value_loop_cons bf rest i v b s :
  value_loop put (bf :: rest) i v b s
  = if bf_offset bf <? wrap32 (i + 4)
    then if bf_size bf =? 5 then Some (b, s)
         else match value_cell bf i v with
              | Some cell => value_loop put rest i v (S b) (put cell s)
              | None => None
              end
    else Some (b, s).
Proof.
  cbn [value_loop].
  destruct (bf_offset bf <? wrap32 (i + 4)); [|done].
  destruct (bf_size bf =? 5); [done|].
  unfold bind, lift. by destruct (value_cell bf i v).
Qed.

(** The specs that the label loop prints are those its cursor moves
    over, and all of them start before the end of the window. *)
Lemma label_loop_labelled rest i b s b' s' :
  label_loop put rest i b s = Some (b', s') →
  ∃ n, b' = (b + n)%nat ∧ (n < length rest)%nat
       ∧ Forall (λ bf, bf_offset bf < wrap32 (i + 4)) (take n rest).
Proof.
  revert b s. induction rest as [|bf rest IH]; intros b s; [done|].
  rewrite label_loop_cons.
  destruct (bf_offset bf <? wrap32 (i + 4)) eqn:Hin.
  - intros (n & -> & Hn & Hall)%IH.
    exists (S n). split_and!; [lia|simpl; lia|].
    cbn [take]. constructor; [by apply Z.ltb_lt|done].
  - intros [= <- <-]. exists 0%nat. split_and!; [lia|simpl; lia|constructor].
Qed.

(** On a spec of width 5 the value loop leaves at once. *)
Lemma value_loop_break bf rest i v b s :
  bf_size bf = 5 → value_loop put (bf :: rest) i v b s = Some (b, s).
Proof.
  intros Hsz. rewrite value_loop_cons, Hsz. cbn [Z.eqb Pos.eqb].
  by destruct (bf_offset bf <? wrap32 (i + 4)).
Qed.

Hypothesis put_nil : ∀ s, put [] s = s.
Hypothesis put_app : ∀ a b s, put b (put a s) = put (a ++ b) s.

(** The label loop over a run that lies in the window and is followed by
    a spec of a later window. *)
Lemma label_loop_run run rest i b s :
  Forall (λ bf, bf_offset bf < wrap32 (i + 4)) run →
  stops_label i rest →
  label_loop put (run ++ rest) i b s
  = Some ((b + length run)%nat, put (label_row run) s).
Proof.
  intros Hrun Hstop. revert b s.
  induction Hrun as [|bf run Hbf _ IH]; intros b s.
  - destruct rest as [|bf rest]; [done|]. cbn [app].
    rewrite label_loop_cons.
    assert ((bf_offset bf <? wrap32 (i + 4)) = false) as ->
      by (apply Z.ltb_ge; exact Hstop).
    cbn [length]. rewrite Nat.add_0_r. unfold label_row. cbn.
    by rewrite put_nil.
  - cbn [app]. rewrite label_loop_cons.
    assert ((bf_offset bf <? wrap32 (i + 4)) = true) as ->
      by (by apply Z.ltb_lt).
    rewrite IH, put_app. cbn [length]. f_equal. f_equal. lia.
Qed.

Lemma value_loop_run run rest i v b s :
  Forall (λ bf, bf_offset bf < wrap32 (i + 4) ∧ bf_size bf ≠ 5
                ∧ is_Some (value_cell bf i v)) run →
  stops_value i rest →
  value_loop put (run ++ rest) i v b s
  = Some ((b + length run)%nat, put (value_row run i v) s).
Proof.
  intros Hrun Hstop. revert b s.
  induction Hrun as [|bf run (Hin & Hsz & [cell Hcell]) _ IH]; intros b s.
  - destruct rest as [|bf rest]; [done|]. cbn [app].
    cbn [length]. rewrite Nat.add_0_r. unfold value_row. cbn [fmap list_fmap concat].
    rewrite put_nil.
    destruct Hstop as [Hout|Hsz]; [|by apply value_loop_break].
    rewrite value_loop_cons.
    assert ((bf_offset bf <? wrap32 (i + 4)) = false) as ->
      by (by apply Z.ltb_ge).
    done.
  - cbn [app]. rewrite value_loop_cons.
    assert ((bf_offset bf <? wrap32 (i + 4)) = true) as ->
      by (by apply Z.ltb_lt).
    assert ((bf_size bf =? 5) = false) as -> by (by apply Z.eqb_neq).
    rewrite Hcell, IH, put_app. cbn [length].
    unfold value_row. cbn [fmap list_fmap concat]. rewrite Hcell.
    f_equal. f_equal. lia.
Qed.
End LoopFacts.

(** ** Runs of a layout *)

Lemma split_run_app (i : Z) (rest : list config_space_bitfield) :
  (split_run i rest).1 ++ (split_run i rest).2 = rest.
Proof.
  induction rest as [|bf rest IH]; [done|]. cbn [split_run].
  destruct (bf_offset bf <? i + 4); cbn; [by rewrite IH|done].
Qed.

Lemma split_run_inside (i : Z) (rest : list config_space_bitfield) :
  Forall (λ bf, bf_offset bf < i + 4) (split_run i rest).1.
Proof.
  induction rest as [|bf rest IH]; [constructor|]. cbn [split_run].
  destruct (bf_offset bf <? i + 4) eqn:Hin; cbn; [|constructor].
  constructor; [by apply Z.ltb_lt|done].
Qed.

Lemma split_run_stops (i : Z) (rest : list config_space_bitfield) :
  match (split_run i rest).2 with
  | [] => True
  | bf :: _ => i + 4 ≤ bf_offset bf
  end.
Proof.
  induction rest as [|bf rest IH]; [done|]. cbn [split_run].
  destruct (bf_offset bf <? i + 4) eqn:Hin; cbn; [done|].
  by apply Z.ltb_ge.
Qed.

Lemma field_ok_spec (i : Z) (bf : config_space_bitfield) :
  field_ok i bf = true →
  1 ≤ bf_size bf ≤ 4 ∧ i ≤ bf_offset bf ∧ is_line (str (bf_name bf)).
Proof.
  unfold field_ok. rewrite !andb_true_iff, !Z.leb_le, bool_decide_eq_true.
  unfold is_line. tauto.
Qed.

(** A decodable spec has a value cell, whatever the dword. *)
Lemma value_cell_defined (bf : config_space_bitfield) (i value : Z) :
  1 ≤ bf_size bf ≤ 4 →
  i ≤ bf_offset bf < i + 4 →
  0 ≤ value < 2 ^ 32 →
  is_Some (value_cell bf i value).
Proof.
  intros Hs Ho Hv. unfold value_cell.
  rewrite bitfield_value_in_window by done. cbn [mbind option_bind].
  assert (fits_str_value (bf_size bf) = true) as ->
    by (apply Z.leb_le; lia).
  by eexists.
Qed.

(** ** The user-space renderer *)

Lemma bind_emit {St B} (put : text → St → St) (t : text)
    (k : unit → M St B) (s : St) :
  bind (emit put t) k s = k tt (put t s).
Proof. reflexivity. Qed.

Lemma bind_eq {St A B} (c : M St A) (k : A → M St B) (s s' : St) (a : A) :
  c s = Some (a, s') → bind c k s = k a s'.
Proof. unfold bind. by intros ->. Qed.

Lemma user_put_nil (m : User.machine) : User.put [] m = m.
Proof. destruct m. unfold User.put. cbn. by rewrite app_nil_r. Qed.

Lemma user_put_app (a b : text) (m : User.machine) :
  User.put b (User.put a m) = User.put (a ++ b) m.
Proof. unfold User.put. cbn. by rewrite app_assoc. Qed.

Lemma user_put_machine (t : text) (c : Z → Z) (a : Z) (o : text) :
  User.put t (User.Machine c a o) = User.Machine c a (o ++ t).
Proof. reflexivity. Qed.

Lemma read_dword (bus dev func reg : Z) (c : Z → Z) (a : Z) (o : text) :
  User.pci_cfg_reg_read_dword bus dev func reg (User.Machine c a o)
  = Some (wrap32 (c (config_tag bus dev func reg)),
          User.Machine c (config_tag bus dev func reg) o).
Proof. reflexivity. Qed.

Lemma read_header_type (bus dev func : Z) (c : Z → Z) (a : Z) (o : text) :
  User.pci_cfg_reg_read_header_type bus dev func (User.Machine c a o)
  = Some (header_type_of c bus dev func,
          User.Machine c (config_tag bus dev func 0x0C) o).
Proof. reflexivity. Qed.

Lemma unlines_cons (l : text) (ls : list text) :
  unlines (l :: ls) = l ++ [newline] ++ unlines ls.
Proof. unfold unlines. cbn. by rewrite <- app_assoc. Qed.

Lemma windows_done (fuel : nat) ptr bus dev func i b m :
  0x40 ≤ i → User.windows fuel ptr bus dev func i b m = Some (tt, m).
Proof.
  intros Hi. destruct fuel; cbn [User.windows];
    by assert ((i <? 0x40) = false) as -> by (by apply Z.ltb_ge).
Qed.

(** The loop over the windows, when the layout decodes cleanly from the
    cursor on: it prints one line per window, then a separator, and leaves
    the hardware as it was. *)
Lemma windows_closed (n : nat) :
  ∀ (fuel : nat) ptr bus dev func i b c a o,
    (n ≤ fuel)%nat →
    i = 0x40 - 4 * Z.of_nat n → 0 ≤ i →
    windows_ok n i (drop b ptr) = true →
    ∃ a',
      User.windows fuel ptr bus dev func i b (User.Machine c a o)
      = Some (tt, User.Machine c a'
                    (o ++ unlines
                            (table_rows n i (drop b ptr) (dword_of c bus dev func)
                               ≫= λ row, [row; separator]))).
Proof.
  induction n as [|n IH]; intros fuel ptr bus dev func i b c a o Hfuel Hi Hpos Hok.
  - exists a. rewrite windows_done by lia. cbn. by rewrite app_nil_r.
  - destruct fuel as [|fuel]; [lia|].
    cbn [windows_ok] in Hok. apply andb_true_iff in Hok as [Hok Hnext].
    apply andb_true_iff in Hok as [Hrun Hrest].
    pose proof (split_run_app i (drop b ptr)) as Happ.
    pose proof (split_run_inside i (drop b ptr)) as Hin.
    pose proof (split_run_stops i (drop b ptr)) as Hstop.
    cbn [table_rows].
    set (run := (split_run i (drop b ptr)).1) in *.
    set (rest := (split_run i (drop b ptr)).2) in *.
    assert (wrap32 (i + 4) = i + 4) as Hwrap
      by (unfold wrap32; apply Z.mod_small; lia).
    rewrite forallb_forall in Hrun.
    assert (Forall (λ bf, 1 ≤ bf_size bf ≤ 4 ∧ i ≤ bf_offset bf < i + 4
                          ∧ is_line (str (bf_name bf))) run) as Hfields.
    { apply Forall_forall. intros bf Hbf.
      rewrite Forall_forall in Hin. specialize (Hin bf Hbf).
      apply list_elem_of_In, Hrun, field_ok_spec in Hbf. lia || tauto. }
    assert (stops_label i rest) as Hsl.
    { unfold stops_label. destruct rest; [done|]. by rewrite Hwrap. }
    cbn [User.windows].
    assert ((i <? 0x40) = true) as -> by (apply Z.ltb_lt; lia).
    unfold User.putchar, User.printf.
    rewrite bind_emit. cbv beta.
    erewrite bind_eq; cycle 1.
    { rewrite <- Happ. apply label_loop_run;
        [apply user_put_nil|apply user_put_app| |done].
      rewrite Hwrap. eapply Forall_impl; [exact Hin|done]. }
    cbv beta. rewrite user_put_app, user_put_machine.
    rewrite (bind_eq _ _ _ _ _ (read_dword _ _ _ _ _ _ _)).
    rewrite bind_emit. cbv beta.
    erewrite bind_eq; cycle 1.
    { rewrite <- Happ. apply value_loop_run;
        [apply user_put_nil|apply user_put_app| |].
      - eapply Forall_impl; [exact Hfields|].
        intros bf (Hs & Ho & _). rewrite Hwrap. split_and!; [lia|lia|].
        apply value_cell_defined; [done|done|].
        apply Z.mod_pos_bound. lia.
      - unfold stops_value. destruct rest; [done|]. left. by rewrite Hwrap. }
    cbv beta. rewrite bind_emit. cbv beta. rewrite bind_emit. cbv beta.
    rewrite !user_put_app, user_put_machine.
    match goal with
    | |- context [User.windows _ _ _ _ _ _ _ (User.Machine _ ?a1 ?o1)] =>
        destruct (IH fuel ptr bus dev func (i + 4) (b + length run)%nat c a1 o1)
          as [a' Hrec]; [lia|lia|lia| |]
    end.
    { rewrite <- drop_drop, <- Happ, drop_app_length. exact Hnext. }
    exists a'. rewrite Hwrap.
    etransitivity; [exact Hrec|]. f_equal. f_equal. f_equal.
    rewrite <- drop_drop, <- Happ, drop_app_length.
    cbn [mbind list_bind app]. rewrite !unlines_cons.
    unfold window_row, dword_of. rewrite <- !app_assoc. reflexivity.
Qed.

Lemma table_rows_length n i rest read : length (table_rows n i rest read) = n.
Proof.
  revert i rest. induction n as [|n IH]; intros i rest; [done|].
  cbn [table_rows length]. by rewrite IH.
Qed.

Lemma is_line_label_row (run : list config_space_bitfield) :
  Forall (λ bf, is_line (str (bf_name bf))) run → is_line (label_row run).
Proof.
  intros Hrun. apply is_line_concat, Forall_fmap.
  eapply Forall_impl; [exact Hrun|]. intros bf. apply is_line_label_cell.
Qed.

Lemma is_line_value_row (run : list config_space_bitfield) (i value : Z) :
  Forall (λ bf, 0 ≤ bf_size bf < 2 ^ 30) run → is_line (value_row run i value).
Proof.
  intros Hrun. apply is_line_concat, Forall_fmap.
  eapply Forall_impl; [exact Hrun|]. intros bf Hs. unfold compose.
  destruct (value_cell bf i value) as [cell|] eqn:Hcell; cbn [from_option id].
  - exact (is_line_value_cell bf i value cell Hs Hcell).
  - apply not_elem_of_nil.
Qed.

(** Row [k] of the table is the line of the window based at [i + 4*k]:
    a bar, the label cells, a gap and a bar, the value cells, and the
    address of the window. *)
Lemma table_rows_shape n : ∀ i rest read (k : nat) row,
  windows_ok n i rest = true →
  table_rows n i rest read !! k = Some row →
  ∃ labels values,
    row = str "|" ++ labels ++ str "    |" ++ values ++ str "    0x"
            ++ fmt_x 2 (i + 4 * Z.of_nat k)
    ∧ is_line labels ∧ is_line values.
Proof.
  induction n as [|n IH]; intros i rest read k row Hok Hrow; [done|].
  cbn [windows_ok] in Hok. apply andb_true_iff in Hok as [Hok Hnext].
  apply andb_true_iff in Hok as [Hrun _].
  cbn [table_rows] in Hrow. destruct k as [|k].
  - injection Hrow as <-. unfold window_row.
    eexists _, _. split_and!.
    + by rewrite Z.mul_0_r, Z.add_0_r.
    + apply is_line_label_row, Forall_forall. intros bf Hbf.
      rewrite forallb_forall in Hrun.
      by apply list_elem_of_In, Hrun, field_ok_spec in Hbf as (_ & _ & ?).
    + apply is_line_value_row, Forall_forall. intros bf Hbf.
      rewrite forallb_forall in Hrun.
      apply list_elem_of_In, Hrun, field_ok_spec in Hbf as (? & _ & _). lia.
  - cbn in Hrow.
    destruct (IH _ _ _ _ _ Hnext Hrow) as (labels & values & -> & Hl & Hv).
    exists labels, values. split_and!; [|done|done].
    do 6 f_equal. lia.
Qed.

Lemma layouts_decode_cleanly (ptr : list config_space_bitfield) :
  ptr ∈ types → windows_ok 16 0 ptr = true.
Proof.
  intros Hptr. apply list_elem_of_In in Hptr. simpl in Hptr.
  destruct Hptr as [<-|[<-|[]]]; vm_compute; reflexivity.
Qed.

(** The text that the program prints for a device of a known header
    type. *)
Lemma print_pci_header_known (bus dev func : Z) (c : Z → Z) (a : Z) (o : text) :
  header_type_of c bus dev func = 0 ∨ header_type_of c bus dev func = 1 →
  ∃ a' ptr ctype,
    types !! Z.to_nat (header_type_of c bus dev func) = Some ptr
    ∧ ctypes !! Z.to_nat (header_type_of c bus dev func) = Some ctype
    ∧ User.print_pci_header bus dev func (User.Machine c a o)
      = Some (tt, User.Machine c a'
                    (o ++ unlines
                            ((User.selected_device bus dev func ++ str ctype)
                               :: banner
                               :: (separator ++ str "    Address")
                               :: (table_rows 16 0 ptr (dword_of c bus dev func)
                                     ≫= λ row, [row; separator])))).
Proof.
  intros Hht. unfold User.print_pci_header.
  rewrite (bind_eq _ _ _ _ _ (read_header_type _ _ _ _ _ _)).
  assert (∃ ptr ctype,
             types !! Z.to_nat (header_type_of c bus dev func) = Some ptr
             ∧ ctypes !! Z.to_nat (header_type_of c bus dev func) = Some ctype
             ∧ ptr ∈ types
             ∧ negb (header_type_of c bus dev func =? 0)
               && negb (header_type_of c bus dev func =? 1) = false)
    as (ptr & ctype & Hptr & Hctype & Hin & ->).
  { destruct Hht as [-> | ->]; eexists _, _;
      (split_and!; [reflexivity|reflexivity| |reflexivity]);
      apply list_elem_of_In; simpl; auto. }
  rewrite Hptr, Hctype. unfold lift, User.printf.
  unfold bind at 1 2. rewrite !bind_emit. cbv beta.
  rewrite !user_put_app, user_put_machine.
  match goal with
  | |- context [User.windows _ _ _ _ _ _ _ (User.Machine _ ?a1 ?o1)] =>
      destruct (windows_closed 16 16 ptr bus dev func 0 0 c a1 o1)
        as [a' Hrec]; [lia|lia|lia|by apply layouts_decode_cleanly|]
  end.
  exists a', ptr, ctype. split_and!; [done|done|].
  etransitivity; [exact Hrec|]. f_equal. f_equal. f_equal.
  rewrite !unlines_cons, drop_0, <- !app_assoc. reflexivity.
Qed.

(** The text that the program prints for any other header type. *)
Lemma print_pci_header_unknown (bus dev func : Z) (c : Z → Z) (a : Z) (o : text) :
  header_type_of c bus dev func ≠ 0 →
  header_type_of c bus dev func ≠ 1 →
  User.print_pci_header bus dev func (User.Machine c a o)
  = Some (tt, User.Machine c (config_tag bus dev func 0x0C)
                (o ++ unlines
                        [str "Unknown PCI header type: "
                           ++ fmt_x 1 (header_type_of c bus dev func);
                         User.selected_device bus dev func
                           ++ str "n unknown type"])).
Proof.
  intros H0 H1. unfold User.print_pci_header.
  rewrite (bind_eq _ _ _ _ _ (read_header_type _ _ _ _ _ _)).
  apply Z.eqb_neq in H0, H1. rewrite H0, H1. cbn [negb andb].
  unfold User.printf. rewrite bind_emit. unfold emit.
  rewrite user_put_app, user_put_machine.
  rewrite !unlines_cons, <- !app_assoc. reflexivity.
Qed.

(** The user-space copy rejects a header type other than 0 and 1 before it
    selects a layout: it prints the two messages and no line of the
    table.  (The kernel copy has no such check, see
    [kernel_header_type_unchecked].) *)
Lemma user_header_type_checked (bus dev func : Z) (m : User.machine) :
  header_type_of (User.cfg m) bus dev func ≠ 0 →
  header_type_of (User.cfg m) bus dev func ≠ 1 →
  ∃ m',
    User.print_pci_header bus dev func m = Some (tt, m')
    ∧ User.stdout m'
      = User.stdout m
          ++ unlines [str "Unknown PCI header type: "
                        ++ fmt_x 1 (header_type_of (User.cfg m) bus dev func);
                      User.selected_device bus dev func
                        ++ str "n unknown type"].
Proof.
  destruct m as [c a o]. cbn [User.cfg User.stdout]. intros H0 H1.
  eexists. split; [by apply print_pci_header_unknown|done].
Qed.

(** ** The sentinel *)

Section Sentinel.
Context {St : Type} (put : text → St → St).

(** The label loop over a run that lies in the window and is followed by
    a spec of a later window: it prints the cell of each spec of the run,
    in order, and stops in front of that spec. *)
Lemma label_loop_cells run rest i b s :
  Forall (λ bf, bf_offset bf < wrap32 (i + 4)) run →
  stops_label i rest →
  label_loop put (run ++ rest) i b s
  = Some ((b + length run)%nat, foldl (λ s bf, put (label_cell bf) s) s run).
Proof.
  intros Hrun Hstop. revert b s.
  induction Hrun as [|bf run Hbf _ IH]; intros b s.
  - destruct rest as [|bf rest]; [done|]. cbn [app].
    rewrite label_loop_cons.
    assert ((bf_offset bf <? wrap32 (i + 4)) = false) as ->
      by (apply Z.ltb_ge; exact Hstop).
    cbn [length foldl]. by rewrite Nat.add_0_r.
  - cbn [app]. rewrite label_loop_cons.
    assert ((bf_offset bf <? wrap32 (i + 4)) = true) as ->
      by (by apply Z.ltb_lt).
    rewrite IH. cbn [length foldl]. do 2 f_equal. lia.
Qed.

(** The value loop over a run of decodable specs that is followed by a
    spec of a later window or by a spec of width 5: it prints the cell of
    each spec of the run, in order, and stops in front of that spec,
    whose own cell is not looked at. *)
Lemma value_loop_cells run cells rest i v b s :
  Forall (λ bf, bf_offset bf < wrap32 (i + 4) ∧ bf_size bf ≠ 5) run →
  Forall2 (λ bf cell, value_cell bf i v = Some cell) run cells →
  stops_value i rest →
  value_loop put (run ++ rest) i v b s
  = Some ((b + length run)%nat, foldl (λ s cell, put cell s) s cells).
Proof.
  intros Hrun Hcells Hstop. revert b s.
  induction Hcells as [|bf cell run cells Hcell _ IH]; intros b s.
  - destruct rest as [|bf rest]; [done|]. cbn [app length foldl].
    rewrite Nat.add_0_r.
    destruct Hstop as [Hout|Hsz]; [|by apply value_loop_break].
    rewrite value_loop_cons.
    by assert ((bf_offset bf <? wrap32 (i + 4)) = false) as ->
      by (by apply Z.ltb_ge).
  - apply Forall_cons in Hrun as [[Hin Hsz] Hrun].
    cbn [app]. rewrite value_loop_cons.
    assert ((bf_offset bf <? wrap32 (i + 4)) = true) as ->
      by (by apply Z.ltb_lt).
    assert ((bf_size bf =? 5) = false) as -> by (by apply Z.eqb_neq).
    rewrite Hcell, IH by done. cbn [length foldl]. do 2 f_equal. lia.
Qed.
End Sentinel.

(** Both layouts end with the sentinel, the only spec of width 5. *)
Lemma sentinel_last (ptr : list config_space_bitfield) :
  ptr ∈ types → ptr = before_sentinel ptr ++ [Bitfield "End" 0x40 5].
Proof.
  intros Hptr. apply list_elem_of_In in Hptr. simpl in Hptr.
  by destruct Hptr as [<-|[<-|[]]].
Qed.

Lemma split_run_run_of (i : Z) (rest : list config_space_bitfield) :
  (split_run i rest).1 = run_of i rest.
Proof.
  induction rest as [|bf rest IH]; [done|]. cbn [split_run run_of].
  destruct (bf_offset bf <? i + 4); cbn; [by rewrite IH|done].
Qed.

(** Every window of both layouts, from every cursor. *)
Lemma window_checks (ptr : list config_space_bitfield) (k b : nat) :
  ptr ∈ types → (k < 16)%nat → (b < length ptr)%nat →
  window_check ptr k b = true.
Proof.
  intros Hptr Hk Hb.
  assert (forallb (λ k, forallb (window_check ptr k) (seq 0 (length ptr)))
                  (seq 0 16) = true) as Hall.
  { apply list_elem_of_In in Hptr. simpl in Hptr.
    destruct Hptr as [<-|[<-|[]]]; by vm_compute. }
  rewrite forallb_forall in Hall.
  specialize (Hall k). rewrite forallb_forall in Hall.
  apply Hall; apply in_seq; lia.
Qed.

(** C7: in both layouts the width-5 "End" record at offset 0x40 is the
    last one and the only one of width 5.  In each of the 16 windows,
    from any cursor, the label loop returns: it prints exactly the cells
    of the run of the window, whose specs start before 0x40, are not 5
    wide and are not called "End", and the text of these cells does not
    show "End"; it stops in front of a spec of a later window, which in
    the last window is the sentinel.  From a cursor that has not fallen
    behind the window, the value loop returns as well: it prints exactly
    the cells of the same run and stops at the same place.  Whatever the
    table and the window, the value loop that meets a spec of width 5
    after a run of other specs stops in front of it with the cells of the
    run printed, also where that spec lies inside the window and where
    its mask would be undefined. *)
Theorem sentinel_never_decoded {St : Type} (put : text → St → St)
    (ptr : list config_space_bitfield) (k b : nat) (v : Z) (s : St) :
  ptr ∈ types → (k < 16)%nat → (b < length ptr)%nat → 0 ≤ v < 2 ^ 32 →
  let i := 4 * Z.of_nat k in
  let run := (split_run i (drop b ptr)).1 in
  ptr = before_sentinel ptr ++ [Bitfield "End" 0x40 5]
  ∧ Forall (λ bf, bf_offset bf < 0x40 ∧ bf_size bf ≠ 5
                  ∧ bf_name bf ≠ "End"%string) run
  ∧ occurs (str "End") (label_row run) = false
  ∧ label_loop put (drop b ptr) i b s
    = Some ((b + length run)%nat,
            foldl (λ s bf, put (label_cell bf) s) s run)
  ∧ (∃ stop, ptr !! (b + length run)%nat = Some stop
             ∧ i + 4 ≤ bf_offset stop
             ∧ (k = 15%nat →
                stop = Bitfield "End" 0x40 5
                ∧ (b + length run)%nat = (length ptr - 1)%nat))
  ∧ ((∀ bf, ptr !! b = Some bf → i ≤ bf_offset bf) →
     ∃ cells,
       Forall2 (λ bf cell, value_cell bf i v = Some cell) run cells
       ∧ value_loop put (drop b ptr) i v b s
         = Some ((b + length run)%nat, foldl (λ s cell, put cell s) s cells))
  ∧ (∀ pre cells sentinel post w,
       bf_size sentinel = 5 →
       Forall (λ bf, bf_offset bf < wrap32 (w + 4) ∧ bf_size bf ≠ 5) pre →
       Forall2 (λ bf cell, value_cell bf w v = Some cell) pre cells →
       value_loop put (pre ++ sentinel :: post) w v b s
       = Some ((b + length pre)%nat, foldl (λ s cell, put cell s) s cells)).
Proof.
  intros Hptr Hk Hb Hv i run.
  pose proof (window_checks ptr k b Hptr Hk Hb) as Hcheck.
  unfold window_check in Hcheck. fold i in Hcheck.
  rewrite <- split_run_run_of in Hcheck. fold run in Hcheck.
  apply andb_true_iff in Hcheck as [Hcheck Hdec].
  apply andb_true_iff in Hcheck as [Hcheck Hstop].
  apply andb_true_iff in Hcheck as [Hrun Hocc].
  apply negb_true_iff in Hocc.
  assert (wrap32 (i + 4) = i + 4) as Hwrap
    by (unfold wrap32; apply Z.mod_small; lia).
  pose proof (split_run_app i (drop b ptr)) as Happ. fold run in Happ.
  pose proof (split_run_inside i (drop b ptr)) as Hin. fold run in Hin.
  destruct (ptr !! (b + length run)%nat) as [stop|] eqn:Hat; [|done].
  apply andb_true_iff in Hstop as [Hlater Hlast]. apply Z.leb_le in Hlater.
  assert (∃ post, (split_run i (drop b ptr)).2 = stop :: post)
    as [post Hpost].
  { rewrite <- lookup_drop, <- Happ, lookup_app_r, Nat.sub_diag in Hat
      by done.
    destruct (split_run i (drop b ptr)).2 as [|x post]; [done|].
    injection Hat as ->. by exists post. }
  rewrite Hpost in Happ.
  split_and!.
  - by apply sentinel_last.
  - rewrite forallb_forall in Hrun. apply Forall_forall. intros bf Hbf.
    apply list_elem_of_In, Hrun in Hbf.
    apply andb_true_iff in Hbf as [Hbf Hname].
    apply andb_true_iff in Hbf as [Hoff Hsz].
    apply Z.ltb_lt in Hoff. apply negb_true_iff in Hsz, Hname.
    apply Z.eqb_neq in Hsz. apply String.eqb_neq in Hname. done.
  - done.
  - rewrite <- Happ. apply label_loop_cells.
    + by rewrite Hwrap.
    + unfold stops_label. by rewrite Hwrap.
  - exists stop. split_and!; [done|done|].
    intros ->. cbn [Nat.eqb negb orb] in Hlast.
    apply andb_true_iff in Hlast as [Hlast Hidx].
    apply andb_true_iff in Hlast as [Hlast Hsz].
    apply andb_true_iff in Hlast as [Hname Hoff].
    apply Nat.eqb_eq in Hidx. apply Z.eqb_eq in Hsz, Hoff.
    apply String.eqb_eq in Hname.
    split; [|done]. destruct stop as [n o z]. cbn in *. by subst.
  - intros Hbase.
    destruct (ptr !! b) as [bf0|] eqn:Hb0;
      [|apply lookup_ge_None in Hb0; lia].
    assert ((i <=? bf_offset bf0) = true) as Hle
      by (apply Z.leb_le; by apply Hbase).
    rewrite Hle in Hdec. cbn [negb orb] in Hdec.
    rewrite forallb_forall in Hdec.
    assert (Forall (λ bf, 1 ≤ bf_size bf ≤ 4 ∧ i ≤ bf_offset bf < i + 4) run)
      as Hfields.
    { apply Forall_forall. intros bf Hbf.
      rewrite Forall_forall in Hin. specialize (Hin bf Hbf).
      apply list_elem_of_In, Hdec, field_ok_spec in Hbf. lia. }
    exists ((λ bf, default [] (value_cell bf i v)) <$> run).
    assert (Forall2 (λ bf cell, value_cell bf i v = Some cell) run
              ((λ bf, default [] (value_cell bf i v)) <$> run)) as Hcells.
    { apply Forall2_fmap_r, Forall_Forall2_diag.
      eapply Forall_impl; [exact Hfields|]. intros bf [Hs Ho].
      destruct (value_cell_defined bf i v Hs Ho Hv) as [cell Hcell].
      unfold compose. by rewrite Hcell. }
    split; [done|].
    rewrite <- Happ. apply value_loop_cells; [|done|].
    + eapply Forall_impl; [exact Hfields|]. intros bf [Hs Ho].
      rewrite Hwrap. lia.
    + left. by rewrite Hwrap.
  - intros pre cells sentinel rest w Hsz Hpre Hcells.
    apply value_loop_cells; [done|done|by right].
Qed.

Lemma sentinel_never_decoded_witness :
  let run := take 4 (drop 23 type_0_header) in
  type_0_header = before_sentinel type_0_header ++ [Bitfield "End" 0x40 5]
  ∧ Forall (λ bf, bf_offset bf < 0x40 ∧ bf_size bf ≠ 5
                  ∧ bf_name bf ≠ "End"%string) run
  ∧ occurs (str "End") (label_row run) = false
  ∧ label_loop collect (drop 23 type_0_header) 0x3C 23 []
    = Some (27%nat,
            str "     IRQ      |   IRQ Pin    |   Min Gnt.   |   Max Lat.   |")
  ∧ (∃ stop, type_0_header !! 27%nat = Some stop
             ∧ 0x3C + 4 ≤ bf_offset stop
             ∧ (15%nat = 15%nat →
                stop = Bitfield "End" 0x40 5
                ∧ 27%nat = (length type_0_header - 1)%nat))
  ∧ (∃ cells,
       Forall2 (λ bf cell, value_cell bf 0x3C 0x000001FF = Some cell) run cells
       ∧ value_loop collect (drop 23 type_0_header) 0x3C 0x000001FF 23 []
         = Some (27%nat, foldl (λ s cell, collect cell s) [] cells))
  ∧ (∀ pre cells sentinel post w,
       bf_size sentinel = 5 →
       Forall (λ bf, bf_offset bf < wrap32 (w + 4) ∧ bf_size bf ≠ 5) pre →
       Forall2 (λ bf cell, value_cell bf w 0x000001FF = Some cell) pre cells →
       value_loop collect (pre ++ sentinel :: post) w 0x000001FF 23 []
       = Some ((23 + length pre)%nat,
               foldl (λ s cell, collect cell s) [] cells)).
Proof.
  assert (type_0_header ∈ types) as Hptr
    by (apply list_elem_of_In; simpl; auto).
  assert (15 < 16)%nat as Hk by lia.
  assert (23 < length type_0_header)%nat as Hb by (simpl; lia).
  assert (0 ≤ 0x000001FF < 2 ^ 32) as Hv by lia.
  destruct (sentinel_never_decoded collect type_0_header 15 23 0x000001FF []
              Hptr Hk Hb Hv)
    as (Hlast & Hrun & Hname & Hlabels & Hstop & Hvalues & Hbreak).
  split_and!;
    [exact Hlast|exact Hrun|exact Hname|exact Hlabels|exact Hstop|
     |exact Hbreak].
  apply Hvalues. intros bf [= <-]. cbn. lia.
Defined.

(** A spec of width 5 inside the window, placed where its mask would be
    undefined: the label loop prints its name and runs on, past the end
    of the table; the value loop stops in front of it. *)
Example value_loop_breaks_before_mask :
  value_cell (Bitfield "End" 0x7 5) 0x4 0x000001FF = None
  ∧ label_loop collect [Bitfield "End" 0x7 5] 0x4 0 [] = None
  ∧ value_loop collect [Bitfield "End" 0x7 5] 0x4 0x000001FF 0 []
    = Some (0%nat, []).
Proof. by vm_compute. Qed.

Example last_window_labels :
  label_loop collect (drop 23 type_0_header) 0x3C 23 []
  = Some (27%nat,
          str "     IRQ      |   IRQ Pin    |   Min Gnt.   |   Max Lat.   |").
Proof. reflexivity. Qed.

(** ** The rendered text *)

Lemma line_count_app (a b : text) :
  line_count (a ++ b) = (line_count a + line_count b)%nat.
Proof. unfold line_count. by rewrite filter_app, length_app. Qed.

Lemma line_count_unlines (ls : list text) :
  (length ls ≤ line_count (unlines ls))%nat.
Proof.
  induction ls as [|l ls IH]; [done|].
  rewrite unlines_cons, !line_count_app. cbn [length].
  change (line_count [newline]) with 1%nat. lia.
Qed.

Lemma length_quartets (quartets : list (text * text * text * text)) :
  length (quartets ≫= λ '(l, s1, v, s2), [l; s1; v; s2])
  = (4 * length quartets)%nat.
Proof.
  induction quartets as [|[[[l s1] v] s2] quartets IH]; [done|].
  rewrite bind_cons, length_app, IH. cbn [length]. lia.
Qed.

(** C8, as stated, fails: the text rendered for the recorded endpoint is
    not a banner, a separator and sixteen quartets of lines.  It has 35
    lines, and the line of the first window holds the labels and the values
    side by side. *)
Lemma sample_render_not_quartets :
  ∃ m',
    User.print_pci_header 0x26 0 0 sample_machine = Some (tt, m')
    ∧ line_count (User.stdout m') = 35%nat
    ∧ ¬ quartet_table (User.stdout m').
Proof.
  eexists. split; [vm_compute; reflexivity|]. split; [reflexivity|].
  intros (banner_line & sep_line & quartets & Hlen & Hout).
  apply (f_equal line_count) in Hout.
  pose proof (line_count_unlines
                (banner_line :: sep_line
                   :: (quartets ≫= λ '(l, s1, v, s2), [l; s1; v; s2]))) as Hle.
  rewrite <- Hout in Hle. cbn [length] in Hle.
  rewrite length_quartets, Hlen in Hle.
  vm_compute in Hle. lia.
Qed.

Lemma is_line_selected_device (bus dev func : Z) :
  is_line (User.selected_device bus dev func).
Proof.
  unfold User.selected_device. rewrite !is_line_app.
  split_and!; first [apply is_line_fmt_x | compute_done].
Qed.

(** C8 (amended): for a device of header type 0 or 1 the program prints the
    line that names the device, the banner line, the separator line
    (marked "Address"), and then, for each of the 16 windows in increasing
    offset order, two lines: one that holds the label row, the value row
    and the address of the window, and a separator line.  The rows are
    those of the layout that the header type selects, filled with the
    dwords of the device. *)
Theorem print_pci_header_lines (bus dev func : Z) (m : User.machine) :
  header_type_of (User.cfg m) bus dev func = 0
  ∨ header_type_of (User.cfg m) bus dev func = 1 →
  ∃ m' ctype rows,
    User.print_pci_header bus dev func m = Some (tt, m')
    ∧ ctypes !! Z.to_nat (header_type_of (User.cfg m) bus dev func)
      = Some ctype
    ∧ length rows = 16%nat
    ∧ User.stdout m'
      = User.stdout m
          ++ unlines ((User.selected_device bus dev func ++ str ctype)
                        :: banner
                        :: (separator ++ str "    Address")
                        :: (rows ≫= λ row, [row; separator]))
    ∧ is_line (User.selected_device bus dev func ++ str ctype)
    ∧ is_line banner
    ∧ is_line (separator ++ str "    Address")
    ∧ is_line separator
    ∧ (∃ ptr,
         types !! Z.to_nat (header_type_of (User.cfg m) bus dev func)
         = Some ptr
         ∧ rows = table_rows 16 0 ptr (dword_of (User.cfg m) bus dev func))
    ∧ ∀ (k : nat) row,
        rows !! k = Some row →
        is_line row
        ∧ ∃ labels values,
            row = str "|" ++ labels ++ str "    |" ++ values
                    ++ str "    0x" ++ fmt_x 2 (4 * Z.of_nat k)
            ∧ is_line labels ∧ is_line values.
Proof.
  destruct m as [c a o]. cbn [User.cfg User.stdout]. intros Hht.
  destruct (print_pci_header_known bus dev func c a o Hht)
    as (a' & ptr & ctype & Hptr & Hctype & Hrun).
  eexists _, ctype, (table_rows 16 0 ptr (dword_of c bus dev func)).
  split_and!;
    [exact Hrun|done|apply table_rows_length|done| | | | |by exists ptr|].
  - apply is_line_app. split; [apply is_line_selected_device|].
    destruct Hht as [Hht|Hht]; rewrite Hht in Hctype;
      injection Hctype as <-; compute_done.
  - compute_done.
  - compute_done.
  - compute_done.
  - intros k row Hrow.
    assert (ptr ∈ types) as Hin by (by eapply list_elem_of_lookup_2).
    destruct (table_rows_shape 16 0 ptr _ k row
                (layouts_decode_cleanly ptr Hin) Hrow)
      as (labels & values & -> & Hl & Hv).
    split.
    + rewrite !is_line_app.
      split_and!; first [done | apply is_line_fmt_x | compute_done].
    + by exists labels, values.
Qed.

Lemma print_pci_header_lines_witness :
  ∃ m' ctype rows,
    User.print_pci_header 0x26 0 0 sample_machine = Some (tt, m')
    ∧ ctypes !! Z.to_nat (header_type_of (User.cfg sample_machine) 0x26 0 0)
      = Some ctype
    ∧ length rows = 16%nat
    ∧ User.stdout m'
      = User.stdout sample_machine
          ++ unlines ((User.selected_device 0x26 0 0 ++ str ctype)
                        :: banner
                        :: (separator ++ str "    Address")
                        :: (rows ≫= λ row, [row; separator]))
    ∧ is_line (User.selected_device 0x26 0 0 ++ str ctype)
    ∧ is_line banner
    ∧ is_line (separator ++ str "    Address")
    ∧ is_line separator
    ∧ (∃ ptr,
         types !! Z.to_nat (header_type_of (User.cfg sample_machine) 0x26 0 0)
         = Some ptr
         ∧ rows = table_rows 16 0 ptr
                    (dword_of (User.cfg sample_machine) 0x26 0 0))
    ∧ ∀ (k : nat) row,
        rows !! k = Some row →
        is_line row
        ∧ ∃ labels values,
            row = str "|" ++ labels ++ str "    |" ++ values
                    ++ str "    0x" ++ fmt_x 2 (4 * Z.of_nat k)
            ∧ is_line labels ∧ is_line values.
Proof.
  apply (print_pci_header_lines 0x26 0 0 sample_machine).
  left. reflexivity.
Defined.

(** C9: rendering is deterministic and can be repeated.  From any state of
    the process, printing the header of a device and then printing it
    again, with the configuration registers unchanged, appends the same
    text twice: the second rendering does not depend on what the first one
    left in the index register or on the output so far.  This holds for
    both layouts (and for a rejected header type). *)
Theorem print_pci_header_twice (bus dev func : Z) (m : User.machine) :
  ∃ m1 m2 t,
    User.print_pci_header bus dev func m = Some (tt, m1)
    ∧ User.cfg m1 = User.cfg m
    ∧ User.print_pci_header bus dev func m1 = Some (tt, m2)
    ∧ User.stdout m1 = User.stdout m ++ t
    ∧ User.stdout m2 = User.stdout m1 ++ t.
Proof.
  destruct m as [c a o].
  destruct (decide (header_type_of c bus dev func = 0
                    ∨ header_type_of c bus dev func = 1)) as [Hht|Hht].
  - destruct (print_pci_header_known bus dev func c a o Hht)
      as (a1 & ptr & ctype & Hptr & Hctype & Hrun1).
    match type of Hrun1 with
    | _ = Some (_, User.Machine _ _ ?o1) =>
        destruct (print_pci_header_known bus dev func c a1 o1 Hht)
          as (a2 & ptr' & ctype' & Hptr' & Hctype' & Hrun2)
    end.
    assert (ptr' = ptr) as -> by congruence.
    assert (ctype' = ctype) as -> by congruence.
    eexists _, _, _. split_and!; [exact Hrun1|done|exact Hrun2|done|done].
  - assert (header_type_of c bus dev func ≠ 0) as H0 by tauto.
    assert (header_type_of c bus dev func ≠ 1) as H1 by tauto.
    eexists _, _, _. split_and!;
      [by apply print_pci_header_unknown|done
      |by apply print_pci_header_unknown|done|done].
Qed.

(** The model prints the first lines of the dump recorded in
    [pci_header.c]. *)
Example sample_render_head :
  ∃ m' rest,
    User.print_pci_header 0x26 0 0 sample_machine = Some (tt, m')
    ∧ User.stdout m'
      = unlines [
          str "Selected device 26:0:0 is an Endpoint";
          str "|    Byte 0    |   Byte 1     |    Byte 2    |    Byte 3    |    |    Byte 0    |   Byte 1     |    Byte 2    |    Byte 3    |";
          str "|-----------------------------------------------------------|    |-----------------------------------------------------------|    Address";
          str "|          Vendor ID          |          Device ID          |    |            0x10B5           |            0x1009           |    0x00";
          str "|-----------------------------------------------------------|    |-----------------------------------------------------------|";
          str "|           Command           |           Status            |    |            0x0007           |            0x0010           |    0x04";
          str "|-----------------------------------------------------------|    |-----------------------------------------------------------|";
          str "| Revision ID  |                 Class Code                 |    |     0xB0     |                   0x000880                 |    0x08"
        ] ++ rest.
Proof. eexists _, _. split; vm_compute; reflexivity. Qed.

(** * Further properties of the program *)

(** ** Cells *)

(** Linear arithmetic with divisions by constants. *)
Ltac lia_div := Z.div_mod_to_equations; lia.

Lemma wrap32_small (z : Z) : 0 ≤ z < 2 ^ 32 → wrap32 z = z.
Proof. apply Z.mod_small. Qed.

Lemma wrap64_small (z : Z) : 0 ≤ z < 2 ^ 64 → wrap64 z = z.
Proof. apply Z.mod_small. Qed.

Lemma to_int_small (z : Z) : 0 ≤ z < 2 ^ 31 → to_int z = z.
Proof.
  intros Hz. unfold to_int. rewrite wrap32_small by lia.
  by assert ((z <? 2 ^ 31) = true) as -> by (apply Z.ltb_lt; lia).
Qed.

Lemma to_int_high (z : Z) : 2 ^ 31 ≤ z < 2 ^ 32 → to_int z = z - 2 ^ 32.
Proof.
  intros Hz. unfold to_int. rewrite wrap32_small by lia.
  by assert ((z <? 2 ^ 31) = false) as -> by (apply Z.ltb_ge; lia).
Qed.

Lemma label_space_available (bf : config_space_bitfield) :
  1 ≤ bf_size bf ≤ 4 →
  wrap32 (14 * bf_size bf + wrap32 (bf_size bf - 1)) = column_width bf.
Proof.
  intros Hs. unfold column_width.
  rewrite (wrap32_small (bf_size bf - 1)) by lia.
  rewrite wrap32_small by lia. lia.
Qed.

Lemma label_cell_padded (bf : config_space_bitfield) :
  1 ≤ bf_size bf ≤ 4 →
  strlen (str (bf_name bf)) ≤ column_width bf →
  let free := column_width bf - strlen (str (bf_name bf)) in
  label_cell bf
  = replicate (Z.to_nat (free / 2)) " "%char
      ++ str (bf_name bf)
      ++ replicate (Z.to_nat (free - free / 2)) " "%char
      ++ str "|"
  ∧ strlen (label_cell bf) = column_width bf + 1.
Proof.
  intros Hs Hfit free.
  assert (free = column_width bf - strlen (str (bf_name bf))) as Hdef
    by reflexivity.
  clearbody free.
  assert (0 ≤ strlen (str (bf_name bf))) as Hlen by (unfold strlen; lia).
  assert (column_width bf = 15 * bf_size bf - 1) as Hcw by reflexivity.
  assert (label_cell bf
          = replicate (Z.to_nat (free / 2)) " "%char
              ++ str (bf_name bf)
              ++ replicate (Z.to_nat (free - free / 2)) " "%char
              ++ str "|") as Heq.
  { unfold label_cell. rewrite label_space_available by done.
    rewrite <- Hdef.
    rewrite (wrap64_small free) by lia_div.
    rewrite (wrap32_small (free / 2)) by lia_div.
    rewrite (to_int_small (free / 2)) by lia_div.
    rewrite wrap64_small by lia_div.
    rewrite (to_int_small (free / 2 + _)) by lia_div.
    rewrite (to_int_small (column_width bf)) by lia_div.
    unfold spaces. do 3 f_equal; [f_equal; lia_div|].
    f_equal. f_equal. lia_div. }
  split; [exact Heq|].
  rewrite Heq. unfold strlen in *.
  rewrite !length_app, !length_replicate. cbn [length str list_ascii_of_string].
  lia_div.
Qed.

(** X1: a name that fits its column is centred in it: the blanks on the left
    are half of the free room, rounded down, the blanks on the right are
    the rest, and the cell with its bar is one character wider than the
    column. *)
Theorem label_cell_centred (bf : config_space_bitfield) :
  1 ≤ bf_size bf ≤ 4 →
  strlen (str (bf_name bf)) ≤ column_width bf →
  let free := column_width bf - strlen (str (bf_name bf)) in
  label_cell bf
  = replicate (Z.to_nat (free / 2)) " "%char
      ++ str (bf_name bf)
      ++ replicate (Z.to_nat (free - free / 2)) " "%char
      ++ str "|"
  ∧ strlen (label_cell bf) = column_width bf + 1.
Proof. apply label_cell_padded. Qed.

Lemma label_cell_centred_witness :
  label_cell (Bitfield "Lat. Timer" 0xD 1)
  = replicate 2 " "%char ++ str "Lat. Timer" ++ replicate 2 " "%char
      ++ str "|"
  ∧ strlen (label_cell (Bitfield "Lat. Timer" 0xD 1)) = 15.
Proof.
  apply (label_cell_centred (Bitfield "Lat. Timer" 0xD 1));
    cbn [bf_size]; vm_compute; intuition discriminate.
Defined.

(** X2: a name that is longer than its column is printed in full, with no
    blank on either side: the padding that the code computes wraps
    around to a negative [int], and both padding loops are skipped. *)
Theorem label_cell_overflow (bf : config_space_bitfield) :
  1 ≤ bf_size bf ≤ 4 →
  column_width bf < strlen (str (bf_name bf)) ≤ 63 →
  label_cell bf = str (bf_name bf) ++ str "|".
Proof.
  intros Hs Hlong. unfold label_cell.
  rewrite label_space_available by done.
  set (len := strlen (str (bf_name bf))) in *.
  set (sa := column_width bf) in *.
  assert (0 ≤ sa < 60) as Hsa by (unfold sa, column_width; lia).
  clearbody len sa.
  assert (wrap64 (sa - len) = 2 ^ 64 + sa - len) as ->.
  { unfold wrap64. symmetry. apply (Z.mod_unique_pos _ _ (-1)); lia. }
  assert (wrap32 ((2 ^ 64 + sa - len) / 2) = 2 ^ 32 - (len - sa + 1) / 2)
    as ->.
  { unfold wrap32. symmetry.
    apply (Z.mod_unique_pos _ _ (2 ^ 31 - 1)); [lia_div|].
    change (2 ^ 64) with (2 * 2 ^ 63). change (2 ^ 32) with 4294967296.
    change (2 ^ 63) with 9223372036854775808.
    change (2 ^ 31) with 2147483648. lia_div. }
  rewrite (to_int_high (2 ^ 32 - _)) by lia_div.
  rewrite wrap64_small by lia_div.
  rewrite (to_int_small (_ + len)) by lia_div.
  rewrite (to_int_small sa) by lia_div.
  unfold spaces.
  replace (Z.to_nat (2 ^ 32 - (len - sa + 1) / 2 - 2 ^ 32 - 0)) with 0%nat
    by lia_div.
  replace (Z.to_nat (sa - (2 ^ 32 - (len - sa + 1) / 2 - 2 ^ 32 + len)))
    with 0%nat by lia_div.
  reflexivity.
Qed.

Lemma label_cell_overflow_witness :
  label_cell (Bitfield "Secondary Latency Timer" 0x1B 1)
  = str "Secondary Latency Timer" ++ str "|".
Proof.
  apply (label_cell_overflow (Bitfield "Secondary Latency Timer" 0x1B 1));
    cbn [bf_size]; vm_compute; intuition discriminate.
Defined.

(** The value that the decoder extracts, as bytes of the dword. *)
Lemma bitfield_value_div_mod (bf : config_space_bitfield) (w raw : Z) :
  1 ≤ bf_size bf ≤ 4 →
  w ≤ bf_offset bf < w + 4 →
  0 ≤ raw < 2 ^ 32 →
  bitfield_value bf w raw
  = Some ((raw / 2 ^ (8 * (bf_offset bf - w))) mod 2 ^ (8 * bf_size bf)).
Proof.
  intros Hs Ho Hraw.
  rewrite bitfield_value_in_window by done.
  rewrite extract_bytes by lia.
  by rewrite (Z.mul_comm (bf_size bf) 8).
Qed.

(** X3: the decoder returns the [size] bytes of the dword that start at the
    field's place in the window, the low byte first; of a field that is
    declared to run past the end of the window it returns only the bytes
    inside the window. *)
Theorem bitfield_value_bytes (bf : config_space_bitfield) (w raw : Z) :
  1 ≤ bf_size bf ≤ 4 →
  w ≤ bf_offset bf < w + 4 →
  0 ≤ raw < 2 ^ 32 →
  ∃ v,
    bitfield_value bf w raw = Some v
    ∧ v = (raw / 2 ^ (8 * (bf_offset bf - w))) mod 2 ^ (8 * bf_size bf)
    ∧ 0 ≤ v < 2 ^ (8 * bf_size bf)
    ∧ v < 2 ^ (8 * (w + 4 - bf_offset bf)).
Proof.
  intros Hs Ho Hraw. eexists. split; [by apply bitfield_value_div_mod|].
  split; [done|].
  set (d := bf_offset bf - w).
  assert (0 < 2 ^ (8 * d)) by (apply Z.pow_pos_nonneg; lia).
  assert (0 < 2 ^ (8 * bf_size bf)) by (apply Z.pow_pos_nonneg; lia).
  assert (0 ≤ raw / 2 ^ (8 * d) < 2 ^ (8 * (w + 4 - bf_offset bf))) as Hq.
  { split; [apply Z.div_pos; lia|].
    apply Z.div_lt_upper_bound; [lia|].
    rewrite <- Z.pow_add_r by lia.
    replace (8 * d + 8 * (w + 4 - bf_offset bf)) with 32 by lia. lia. }
  split; [by apply Z.mod_pos_bound|].
  eapply Z.le_lt_trans; [apply Z.mod_le; lia|lia].
Qed.

Lemma bitfield_value_bytes_witness :
  ∃ v,
    bitfield_value (Bitfield "Class Code" 0xA 3) 8 0x088000B0 = Some v
    ∧ v = (0x088000B0 / 2 ^ (8 * (0xA - 8))) mod 2 ^ (8 * 3)
    ∧ 0 ≤ v < 2 ^ (8 * 3)
    ∧ v < 2 ^ (8 * (8 + 4 - 0xA)).
Proof.
  apply (bitfield_value_bytes (Bitfield "Class Code" 0xA 3) 8 0x088000B0);
    cbn [bf_size bf_offset]; lia.
Defined.

Lemma value_column (bf : config_space_bitfield) :
  1 ≤ bf_size bf ≤ 4 →
  value_space_available bf = column_width bf
  ∧ value_padding bf = 7 * bf_size bf - 2.
Proof.
  intros Hs. unfold value_padding, value_space_available, column_width.
  rewrite (wrap32_small (14 * _ + _)) by lia.
  rewrite (wrap32_small (_ - 1)) by lia.
  rewrite (wrap32_small (2 + _)) by lia.
  rewrite wrap32_small by lia. lia_div.
Qed.

Lemma pow16_pow2 (s : Z) :
  1 ≤ s ≤ 4 → 16 ^ Z.of_nat (2 * Z.to_nat s) = 2 ^ (8 * s).
Proof.
  intros Hs.
  assert (s = 1 ∨ s = 2 ∨ s = 3 ∨ s = 4) as [->|[->|[->| ->]]] by lia;
    reflexivity.
Qed.

(** The shape of a value cell. *)
Lemma value_cell_shape (bf : config_space_bitfield) (w raw : Z) :
  1 ≤ bf_size bf ≤ 4 →
  w ≤ bf_offset bf < w + 4 →
  0 ≤ raw < 2 ^ 32 →
  value_cell bf w raw
  = Some (replicate (Z.to_nat (7 * bf_size bf - 2)) " "%char
            ++ str "0x"
            ++ hex_fixed (2 * Z.to_nat (bf_size bf))
                 ((raw / 2 ^ (8 * (bf_offset bf - w)))
                    mod 2 ^ (8 * bf_size bf))
            ++ replicate (Z.to_nat (6 * bf_size bf - 1)) " "%char
            ++ str "|").
Proof.
  intros Hs Ho Hraw. unfold value_cell.
  rewrite bitfield_value_div_mod by done. cbn [mbind option_bind].
  assert (fits_str_value (bf_size bf) = true) as ->
    by (apply Z.leb_le; lia).
  destruct (value_column bf Hs) as [-> ->].
  set (v := (raw / 2 ^ (8 * (bf_offset bf - w))) mod 2 ^ (8 * bf_size bf)).
  assert (0 ≤ v < 2 ^ 32) as Hv.
  { assert (0 ≤ v < 2 ^ (8 * bf_size bf)) as Hb
      by (apply Z.mod_pos_bound, Z.pow_pos_nonneg; lia).
    split; [lia|]. eapply Z.lt_le_trans; [apply Hb|].
    apply Z.pow_le_mono_r; lia. }
  rewrite int_2_hexstr_fixed by lia.
  rewrite (wrap32_small v) by done.
  unfold strlen. rewrite length_app, length_hex_fixed.
  cbn [length str list_ascii_of_string].
  unfold column_width.
  rewrite (to_int_small (7 * _ - 2)) by lia.
  rewrite wrap64_small by lia.
  rewrite (to_int_small (_ + _)) by lia.
  rewrite (to_int_small (15 * _ - 1)) by lia.
  unfold spaces. rewrite <- app_assoc.
  do 2 f_equal; [f_equal; lia|]. do 4 f_equal. lia.
Qed.

(** X4: the value cell of a field holds ["0x"] and [2*size] digits that denote
    the field's bytes of the dword, between blanks that fill the column;
    with its bar it is as wide as the label cell of the field. *)
Theorem value_cell_shows_bytes (bf : config_space_bitfield) (w raw : Z) :
  1 ≤ bf_size bf ≤ 4 →
  w ≤ bf_offset bf < w + 4 →
  0 ≤ raw < 2 ^ 32 →
  ∃ (l r : nat) (digits : text),
    value_cell bf w raw
    = Some (replicate l " "%char ++ str "0x" ++ digits
              ++ replicate r " "%char ++ str "|")
    ∧ strlen digits = 2 * bf_size bf
    ∧ Forall upper_hex digits
    ∧ hex_value digits
      = (raw / 2 ^ (8 * (bf_offset bf - w))) mod 2 ^ (8 * bf_size bf)
    ∧ Z.of_nat l + 2 + strlen digits + Z.of_nat r = column_width bf.
Proof.
  intros Hs Ho Hraw. eexists _, _, _.
  split; [by apply value_cell_shape|].
  unfold strlen. rewrite length_hex_fixed. split_and!.
  - lia.
  - apply hex_fixed_upper.
  - rewrite hex_value_fixed, pow16_pow2 by done.
    apply Z.mod_small, Z.mod_pos_bound, Z.pow_pos_nonneg; lia.
  - unfold column_width. lia.
Qed.

Lemma value_cell_shows_bytes_witness :
  ∃ (l r : nat) (digits : text),
    value_cell (Bitfield "Device ID" 0x2 2) 0 0x100910B5
    = Some (replicate l " "%char ++ str "0x" ++ digits
              ++ replicate r " "%char ++ str "|")
    ∧ strlen digits = 2 * 2
    ∧ Forall upper_hex digits
    ∧ hex_value digits = (0x100910B5 / 2 ^ (8 * (0x2 - 0))) mod 2 ^ (8 * 2)
    ∧ Z.of_nat l + 2 + strlen digits + Z.of_nat r
      = column_width (Bitfield "Device ID" 0x2 2).
Proof.
  apply (value_cell_shows_bytes (Bitfield "Device ID" 0x2 2) 0 0x100910B5);
    cbn [bf_size bf_offset]; lia.
Defined.

(** ** The width of the table *)

Lemma strlen_app (a b : text) : strlen (a ++ b) = strlen a + strlen b.
Proof. unfold strlen. rewrite length_app. lia. Qed.

Lemma strlen_label_row (run : list config_space_bitfield) :
  Forall (λ bf, 1 ≤ bf_size bf ≤ 4
                ∧ strlen (str (bf_name bf)) ≤ column_width bf) run →
  strlen (label_row run) = 15 * run_bytes run.
Proof.
  induction 1 as [|bf run [Hs Hfit] _ IH]; [done|].
  unfold label_row in *. cbn [fmap list_fmap concat run_bytes foldr].
  rewrite strlen_app, IH.
  destruct (label_cell_padded bf Hs Hfit) as [_ ->].
  unfold column_width, run_bytes. lia.
Qed.

Lemma strlen_value_row (run : list config_space_bitfield) (i raw : Z) :
  0 ≤ raw < 2 ^ 32 →
  Forall (λ bf, 1 ≤ bf_size bf ≤ 4 ∧ i ≤ bf_offset bf < i + 4) run →
  strlen (value_row run i raw) = 15 * run_bytes run.
Proof.
  intros Hraw. induction 1 as [|bf run [Hs Ho] _ IH]; [done|].
  unfold value_row in *. cbn [fmap list_fmap concat run_bytes foldr].
  rewrite strlen_app, IH, value_cell_shape by done.
  cbn [default from_option id]. unfold strlen.
  rewrite !length_app, !length_replicate, length_hex_fixed.
  cbn [length str list_ascii_of_string]. unfold run_bytes. lia.
Qed.

Lemma strlen_fmt_address (k : Z) : 0 ≤ k < 16 → strlen (fmt_x 2 (4 * k)) = 2.
Proof.
  intros Hk.
  assert (k = 0 ∨ k = 1 ∨ k = 2 ∨ k = 3 ∨ k = 4 ∨ k = 5 ∨ k = 6 ∨ k = 7
          ∨ k = 8 ∨ k = 9 ∨ k = 10 ∨ k = 11 ∨ k = 12 ∨ k = 13 ∨ k = 14
          ∨ k = 15)
    as [->|[->|[->|[->|[->|[->|[->|[->|[->|[->|[->|[->|[->|[->|[->| ->]]]]]]]]]]]]]]]
    by lia; reflexivity.
Qed.

Lemma run_sized_spec (run : list config_space_bitfield) :
  run_sized run = true →
  Forall (λ bf, strlen (str (bf_name bf)) ≤ column_width bf) run
  ∧ run_bytes run = 4.
Proof.
  unfold run_sized. rewrite andb_true_iff, Z.eqb_eq, forallb_forall.
  intros [Hfit ->]. split; [|done].
  apply Forall_forall. intros bf Hbf.
  by apply Z.leb_le, Hfit, list_elem_of_In.
Qed.

(** Both blocks of a row are 60 characters wide when every run fills its
    window. *)
Lemma table_rows_width n : ∀ i rest read (k : nat) row,
  windows_ok n i rest = true →
  windows_sized n i rest = true →
  (∀ w, 0 ≤ read w < 2 ^ 32) →
  table_rows n i rest read !! k = Some row →
  ∃ labels values,
    row = str "|" ++ labels ++ str "    |" ++ values ++ str "    0x"
            ++ fmt_x 2 (i + 4 * Z.of_nat k)
    ∧ strlen labels = 60 ∧ strlen values = 60.
Proof.
  induction n as [|n IH]; intros i rest read k row Hok Hsized Hread Hrow;
    [done|].
  cbn [windows_ok] in Hok. apply andb_true_iff in Hok as [Hok Hnext].
  apply andb_true_iff in Hok as [Hrun _].
  cbn [windows_sized] in Hsized.
  apply andb_true_iff in Hsized as [Hfit Hsnext].
  cbn [table_rows] in Hrow. destruct k as [|k].
  - injection Hrow as <-. unfold window_row.
    apply run_sized_spec in Hfit as [Hfit Hbytes].
    rewrite forallb_forall in Hrun.
    pose proof (split_run_inside i rest) as Hin.
    rewrite Forall_forall in Hfit, Hin.
    eexists _, _. split_and!.
    + by rewrite Z.mul_0_r, Z.add_0_r.
    + rewrite strlen_label_row, Hbytes; [done|].
      apply Forall_forall. intros bf Hbf. split; [|by apply Hfit].
      by apply list_elem_of_In, Hrun, field_ok_spec in Hbf as (? & _ & _).
    + rewrite strlen_value_row, Hbytes; [done|done|].
      apply Forall_forall. intros bf Hbf. specialize (Hin bf Hbf).
      apply list_elem_of_In, Hrun, field_ok_spec in Hbf as (? & ? & _). lia.
  - cbn in Hrow.
    destruct (IH _ _ _ _ _ Hnext Hsnext Hread Hrow)
      as (labels & values & -> & Hl & Hv).
    exists labels, values. split_and!; [|done|done].
    do 6 f_equal. lia.
Qed.

Lemma layouts_fill_windows (ptr : list config_space_bitfield) :
  ptr ∈ types → windows_sized 16 0 ptr = true.
Proof.
  intros Hptr. apply list_elem_of_In in Hptr. simpl in Hptr.
  destruct Hptr as [<-|[<-|[]]]; vm_compute; reflexivity.
Qed.

(** X6: for a device of header type 0 or 1 the table is rectangular: in each of
    the 16 lines the label block and the value block are 60 characters
    wide, as wide as the dashes and closing bar of the separator, and the
    line has 134 characters. *)
Theorem print_pci_header_aligned (bus dev func : Z) (m : User.machine) :
  header_type_of (User.cfg m) bus dev func = 0
  ∨ header_type_of (User.cfg m) bus dev func = 1 →
  ∃ m' title rows,
    User.print_pci_header bus dev func m = Some (tt, m')
    ∧ User.stdout m'
      = User.stdout m
          ++ unlines (title :: banner :: (separator ++ str "    Address")
                        :: (rows ≫= λ row, [row; separator]))
    ∧ length rows = 16%nat
    ∧ strlen separator = 1 + 60 + 4 + 1 + 60
    ∧ ∀ (k : nat) row,
        rows !! k = Some row →
        strlen row = 134
        ∧ ∃ labels values,
            row = str "|" ++ labels ++ str "    |" ++ values
                    ++ str "    0x" ++ fmt_x 2 (4 * Z.of_nat k)
            ∧ strlen labels = 60 ∧ strlen values = 60.
Proof.
  destruct m as [c a o]. cbn [User.cfg User.stdout]. intros Hht.
  destruct (print_pci_header_known bus dev func c a o Hht)
    as (a' & ptr & ctype & Hptr & Hctype & Hrun).
  eexists _, _, (table_rows 16 0 ptr (dword_of c bus dev func)).
  split_and!; [exact Hrun|done|apply table_rows_length|reflexivity|].
  intros k row Hrow.
  assert (ptr ∈ types) as Hin by (by eapply list_elem_of_lookup_2).
  assert (k < 16)%nat as Hk.
  { apply lookup_lt_Some in Hrow. by rewrite table_rows_length in Hrow. }
  destruct (table_rows_width 16 0 ptr _ k row
              (layouts_decode_cleanly ptr Hin) (layouts_fill_windows ptr Hin)
              (λ w, Z.mod_pos_bound _ (2 ^ 32) eq_refl) Hrow)
    as (labels & values & -> & Hl & Hv).
  rewrite Z.add_0_l. split.
  - rewrite !strlen_app, Hl, Hv, strlen_fmt_address by lia. reflexivity.
  - by exists labels, values.
Qed.

Lemma print_pci_header_aligned_witness :
  ∃ m' title rows,
    User.print_pci_header 0x26 0 0 sample_machine = Some (tt, m')
    ∧ User.stdout m'
      = User.stdout sample_machine
          ++ unlines (title :: banner :: (separator ++ str "    Address")
                        :: (rows ≫= λ row, [row; separator]))
    ∧ length rows = 16%nat
    ∧ strlen separator = 1 + 60 + 4 + 1 + 60
    ∧ ∀ (k : nat) row,
        rows !! k = Some row →
        strlen row = 134
        ∧ ∃ labels values,
            row = str "|" ++ labels ++ str "    |" ++ values
                    ++ str "    0x" ++ fmt_x 2 (4 * Z.of_nat k)
            ∧ strlen labels = 60 ∧ strlen values = 60.
Proof.
  apply (print_pci_header_aligned 0x26 0 0 sample_machine).
  left. reflexivity.
Defined.

(** ** The kernel renderer *)

Section LoopsAfterOutput.
Context {St : Type} (put : text → St → St).
Hypothesis put_app : ∀ a b s, put b (put a s) = put (a ++ b) s.

(** The loops, entered after something was printed: they extend it. *)
Lemma label_loop_extends run rest i b pre s :
  Forall (λ bf, bf_offset bf < wrap32 (i + 4)) run →
  stops_label i rest →
  label_loop put (run ++ rest) i b (put pre s)
  = Some ((b + length run)%nat, put (pre ++ label_row run) s).
Proof.
  intros Hrun Hstop. revert b pre.
  induction Hrun as [|bf run Hbf _ IH]; intros b pre.
  - destruct rest as [|bf rest]; [done|]. cbn [app].
    rewrite label_loop_cons.
    assert ((bf_offset bf <? wrap32 (i + 4)) = false) as ->
      by (apply Z.ltb_ge; exact Hstop).
    cbn [length]. rewrite Nat.add_0_r. unfold label_row. cbn.
    by rewrite app_nil_r.
  - cbn [app]. rewrite label_loop_cons.
    assert ((bf_offset bf <? wrap32 (i + 4)) = true) as ->
      by (by apply Z.ltb_lt).
    rewrite put_app, IH. cbn [length]. unfold label_row.
    cbn [fmap list_fmap concat]. rewrite <- app_assoc.
    f_equal. f_equal. lia.
Qed.

Lemma value_loop_extends run rest i v b pre s :
  Forall (λ bf, bf_offset bf < wrap32 (i + 4) ∧ bf_size bf ≠ 5
                ∧ is_Some (value_cell bf i v)) run →
  stops_value i rest →
  value_loop put (run ++ rest) i v b (put pre s)
  = Some ((b + length run)%nat, put (pre ++ value_row run i v) s).
Proof.
  intros Hrun Hstop. revert b pre.
  induction Hrun as [|bf run (Hin & Hsz & [cell Hcell]) _ IH]; intros b pre.
  - destruct rest as [|bf rest]; [done|]. cbn [app].
    cbn [length]. rewrite Nat.add_0_r. unfold value_row.
    cbn [fmap list_fmap concat]. rewrite app_nil_r.
    destruct Hstop as [Hout|Hsz]; [|by apply value_loop_break].
    rewrite value_loop_cons.
    by assert ((bf_offset bf <? wrap32 (i + 4)) = false) as ->
      by (by apply Z.ltb_ge).
  - cbn [app]. rewrite value_loop_cons.
    assert ((bf_offset bf <? wrap32 (i + 4)) = true) as ->
      by (by apply Z.ltb_lt).
    assert ((bf_size bf =? 5) = false) as -> by (by apply Z.eqb_neq).
    rewrite Hcell, put_app, IH. cbn [length]. unfold value_row.
    cbn [fmap list_fmap concat]. rewrite Hcell. cbn [default from_option id].
    rewrite <- app_assoc. f_equal. f_equal. lia.
Qed.
End LoopsAfterOutput.

Lemma kernel_cont_app (a b : text) (log : Kernel.klog) :
  Kernel.cont b (Kernel.cont a log) = Kernel.cont (a ++ b) log.
Proof.
  unfold Kernel.cont. destruct (reverse log) as [|r older] eqn:Hlog.
  - by rewrite reverse_singleton.
  - rewrite reverse_app, reverse_singleton, reverse_involutive.
    cbn. by rewrite app_assoc.
Qed.

Lemma kernel_cont_snoc (t r : text) (log : Kernel.klog) :
  Kernel.cont t (log ++ [r]) = log ++ [r ++ t].
Proof.
  unfold Kernel.cont. rewrite reverse_app, reverse_singleton. cbn [app].
  by rewrite reverse_involutive.
Qed.

Lemma kernel_info_cont (t : text) (log : Kernel.klog) :
  Kernel.info t log = Kernel.cont t (log ++ [[]]).
Proof. by rewrite kernel_cont_snoc. Qed.

Lemma kernel_windows_done (fuel : nat) ptr pdev i b log :
  0x40 ≤ i → Kernel.windows fuel ptr pdev i b log = Some (tt, log).
Proof.
  intros Hi. destruct fuel; cbn [Kernel.windows];
    by assert ((i <? 0x40) = false) as -> by (by apply Z.ltb_ge).
Qed.

(** The loop over the windows in the kernel copy: each window adds two
    records to the log, the line of the window and a separator. *)
Lemma kernel_windows_closed (n : nat) :
  ∀ (fuel : nat) ptr pdev i b log,
    (n ≤ fuel)%nat →
    i = 0x40 - 4 * Z.of_nat n → 0 ≤ i →
    windows_ok n i (drop b ptr) = true →
    Kernel.windows fuel ptr pdev i b log
    = Some (tt, log ++ (table_rows n i (drop b ptr)
                          (λ w, wrap32 (Kernel.config pdev w))
                          ≫= λ row, [row; separator ++ [newline]])).
Proof.
  induction n as [|n IH]; intros fuel ptr pdev i b log Hfuel Hi Hpos Hok.
  - rewrite kernel_windows_done by lia. cbn. by rewrite app_nil_r.
  - destruct fuel as [|fuel]; [lia|].
    cbn [windows_ok] in Hok. apply andb_true_iff in Hok as [Hok Hnext].
    apply andb_true_iff in Hok as [Hrun Hrest].
    pose proof (split_run_app i (drop b ptr)) as Happ.
    pose proof (split_run_inside i (drop b ptr)) as Hin.
    pose proof (split_run_stops i (drop b ptr)) as Hstop.
    cbn [table_rows].
    set (run := (split_run i (drop b ptr)).1) in *.
    set (rest := (split_run i (drop b ptr)).2) in *.
    assert (wrap32 (i + 4) = i + 4) as Hwrap
      by (unfold wrap32; apply Z.mod_small; lia).
    rewrite forallb_forall in Hrun.
    assert (Forall (λ bf, 1 ≤ bf_size bf ≤ 4 ∧ i ≤ bf_offset bf < i + 4) run)
      as Hfields.
    { apply Forall_forall. intros bf Hbf.
      rewrite Forall_forall in Hin. specialize (Hin bf Hbf).
      apply list_elem_of_In, Hrun, field_ok_spec in Hbf. lia. }
    assert (stops_label i rest) as Hsl.
    { unfold stops_label. destruct rest; [done|]. by rewrite Hwrap. }
    cbn [Kernel.windows].
    assert ((i <? 0x40) = true) as -> by (apply Z.ltb_lt; lia).
    unfold Kernel.pr_info, Kernel.pr_cont, Kernel.pci_read_config_dword.
    rewrite bind_emit. cbv beta.
    rewrite kernel_info_cont.
    erewrite bind_eq; cycle 1.
    { rewrite <- Happ. apply label_loop_extends;
        [apply kernel_cont_app| |done].
      rewrite Hwrap. eapply Forall_impl; [exact Hin|done]. }
    cbv beta. unfold bind at 1, ret at 1.
    rewrite bind_emit. cbv beta. rewrite kernel_cont_app.
    erewrite bind_eq; cycle 1.
    { rewrite <- Happ. apply value_loop_extends;
        [apply kernel_cont_app| |].
      - eapply Forall_impl; [exact Hfields|].
        intros bf (Hs & Ho). rewrite Hwrap. split_and!; [lia|lia|].
        apply value_cell_defined; [done|done|].
        apply Z.mod_pos_bound. lia.
      - unfold stops_value. destruct rest; [done|]. left. by rewrite Hwrap. }
    cbv beta. rewrite bind_emit. cbv beta. rewrite bind_emit. cbv beta.
    rewrite kernel_cont_app, kernel_cont_snoc. unfold Kernel.info.
    rewrite Hwrap. cbn [app].
    rewrite (IH fuel ptr pdev (i + 4) (b + length run)%nat); [|lia|lia|lia|].
    2: { rewrite <- drop_drop, <- Happ, drop_app_length. exact Hnext. }
    f_equal. f_equal.
    rewrite <- drop_drop, <- Happ, drop_app_length.
    cbn [mbind list_bind app]. unfold window_row.
    rewrite <- !app_assoc. reflexivity.
Qed.

(** The log that the kernel copy writes for a device of a known header
    type. *)
Lemma kernel_print_pci_header_known (pdev : Kernel.pci_dev) (log : Kernel.klog) :
  Kernel.hdr_type pdev mod 256 = 0 ∨ Kernel.hdr_type pdev mod 256 = 1 →
  ∃ ptr ctype,
    types !! Z.to_nat (Kernel.hdr_type pdev mod 256) = Some ptr
    ∧ ctypes !! Z.to_nat (Kernel.hdr_type pdev mod 256) = Some ctype
    ∧ Kernel.print_pci_header (Some pdev) log
      = Some (tt, log
                    ++ [Kernel.selected_device pdev ++ str ctype ++ [newline];
                        banner ++ [newline];
                        separator ++ str "    Address" ++ [newline]]
                    ++ (table_rows 16 0 ptr (λ w, wrap32 (Kernel.config pdev w))
                          ≫= λ row, [row; separator ++ [newline]])).
Proof.
  intros Hht. unfold Kernel.print_pci_header.
  assert (∃ ptr ctype,
             types !! Z.to_nat (Kernel.hdr_type pdev mod 256) = Some ptr
             ∧ ctypes !! Z.to_nat (Kernel.hdr_type pdev mod 256) = Some ctype
             ∧ ptr ∈ types)
    as (ptr & ctype & Hptr & Hctype & Hin).
  { destruct Hht as [-> | ->]; eexists _, _;
      (split_and!; [reflexivity|reflexivity|]);
      apply list_elem_of_In; simpl; auto. }
  exists ptr, ctype. split_and!; [done|done|].
  rewrite Hptr, Hctype. unfold lift, Kernel.pr_info.
  unfold bind at 1 2. rewrite !bind_emit. cbv beta.
  rewrite (kernel_windows_closed 16 16 ptr pdev 0 0);
    [|lia|lia|lia|by apply layouts_decode_cleanly].
  unfold Kernel.info. rewrite drop_0, <- !app_assoc. reflexivity.
Qed.

Lemma table_rows_ext n : ∀ i rest (read read' : Z → Z),
  (∀ k, 0 ≤ k < Z.of_nat n → read (i + 4 * k) = read' (i + 4 * k)) →
  table_rows n i rest read = table_rows n i rest read'.
Proof.
  induction n as [|n IH]; intros i rest read read' Hext; [done|].
  cbn [table_rows]. f_equal.
  - f_equal. specialize (Hext 0). rewrite Z.mul_0_r, Z.add_0_r in Hext.
    apply Hext. lia.
  - apply IH. intros k Hk.
    replace (i + 4 + 4 * k) with (i + 4 * (k + 1)) by lia.
    apply Hext. lia.
Qed.

(** X13: the two copies of the renderer print the same table.  For a device of
    header type 0 or 1 whose 16 dwords read the same through the port pair
    and through the PCI core, the lines that the user-space program prints
    for the windows are the records that the kernel module logs for them,
    in the same order, each followed by a separator. *)
Theorem kernel_user_same_rows (bus dev func : Z) (m : User.machine)
    (pdev : Kernel.pci_dev) (log : Kernel.klog) :
  Kernel.hdr_type pdev mod 256 = header_type_of (User.cfg m) bus dev func →
  header_type_of (User.cfg m) bus dev func = 0
  ∨ header_type_of (User.cfg m) bus dev func = 1 →
  (∀ k, 0 ≤ k < 16 →
        wrap32 (Kernel.config pdev (4 * k))
        = dword_of (User.cfg m) bus dev func (4 * k)) →
  ∃ m' log' ctype rows,
    User.print_pci_header bus dev func m = Some (tt, m')
    ∧ Kernel.print_pci_header (Some pdev) log = Some (tt, log')
    ∧ length rows = 16%nat
    ∧ User.stdout m'
      = User.stdout m
          ++ unlines ((User.selected_device bus dev func ++ str ctype)
                        :: banner
                        :: (separator ++ str "    Address")
                        :: (rows ≫= λ row, [row; separator]))
    ∧ log'
      = log
          ++ [Kernel.selected_device pdev ++ str ctype ++ [newline];
              banner ++ [newline];
              separator ++ str "    Address" ++ [newline]]
          ++ (rows ≫= λ row, [row; separator ++ [newline]]).
Proof.
  destruct m as [c a o]. cbn [User.cfg User.stdout]. intros Hsame Hht Hdw.
  destruct (print_pci_header_known bus dev func c a o Hht)
    as (a' & ptr & ctype & Hptr & Hctype & Hrun).
  rewrite <- Hsame in Hht.
  destruct (kernel_print_pci_header_known pdev log Hht)
    as (ptr' & ctype' & Hptr' & Hctype' & Hkrun).
  rewrite Hsame in Hptr', Hctype'.
  assert (ptr' = ptr) as -> by congruence.
  assert (ctype' = ctype) as -> by congruence.
  eexists _, _, ctype, (table_rows 16 0 ptr (dword_of c bus dev func)).
  split_and!; [exact Hrun|exact Hkrun|apply table_rows_length|done|].
  do 3 f_equal. apply table_rows_ext. intros k Hk.
  rewrite Z.add_0_l. apply Hdw. lia.
Qed.

Lemma kernel_user_same_rows_witness :
  ∃ m' log' ctype rows,
    User.print_pci_header 0x26 0 0 sample_machine = Some (tt, m')
    ∧ Kernel.print_pci_header
        (Some (Kernel.PciDev 0 0x26 0 sample_endpoint)) []
      = Some (tt, log')
    ∧ length rows = 16%nat
    ∧ User.stdout m'
      = User.stdout sample_machine
          ++ unlines ((User.selected_device 0x26 0 0 ++ str ctype)
                        :: banner
                        :: (separator ++ str "    Address")
                        :: (rows ≫= λ row, [row; separator]))
    ∧ log'
      = []
          ++ [Kernel.selected_device (Kernel.PciDev 0 0x26 0 sample_endpoint)
                ++ str ctype ++ [newline];
              banner ++ [newline];
              separator ++ str "    Address" ++ [newline]]
          ++ (rows ≫= λ row, [row; separator ++ [newline]]).
Proof.
  apply (kernel_user_same_rows 0x26 0 0 sample_machine
           (Kernel.PciDev 0 0x26 0 sample_endpoint) []).
  - reflexivity.
  - left. reflexivity.
  - intros k Hk.
    assert (k = 0 ∨ k = 1 ∨ k = 2 ∨ k = 3 ∨ k = 4 ∨ k = 5 ∨ k = 6 ∨ k = 7
            ∨ k = 8 ∨ k = 9 ∨ k = 10 ∨ k = 11 ∨ k = 12 ∨ k = 13 ∨ k = 14
            ∨ k = 15)
      as [->|[->|[->|[->|[->|[->|[->|[->|[->|[->|[->|[->|[->|[->|[->| ->]]]]]]]]]]]]]]]
      by lia; reflexivity.
Defined.

(** ** The configuration mechanism *)

Lemma lor_high_low (a n b : Z) :
  0 ≤ n → 0 ≤ b < 2 ^ n → Z.lor (a * 2 ^ n) b = a * 2 ^ n + b.
Proof.
  intros Hn Hb. symmetry. apply Z.add_nocarry_lor.
  apply Z.bits_inj'. intros k Hk.
  rewrite Z.land_spec, Z.bits_0, <- Z.shiftl_mul_pow2 by done.
  destruct (decide (k < n)) as [Hlt|Hge].
  - by rewrite Z.shiftl_spec_low.
  - rewrite <- (Z.mod_small b (2 ^ n)) by done.
    rewrite Z.mod_pow2_bits_high by lia. apply andb_false_r.
Qed.

Lemma land_FC (reg : Z) : 0 ≤ reg < 256 → Z.land reg 0xFC = 4 * (reg / 4).
Proof.
  assert (Forall (λ r, Z.land r 0xFC = 4 * (r / 4)) (seqZ 0 256)) as Hall
    by compute_done.
  intros Hreg. rewrite Forall_seqZ in Hall. apply Hall. lia.
Qed.

Lemma land_3 (reg : Z) : Z.land reg 3 = reg mod 4.
Proof. change 3 with (Z.ones 2). by rewrite Z.land_ones. Qed.

Lemma land_2 (reg : Z) : 0 ≤ reg < 256 → Z.land reg 2 = 2 * (reg / 2 mod 2).
Proof.
  assert (Forall (λ r, Z.land r 2 = 2 * (r / 2 mod 2)) (seqZ 0 256)) as Hall
    by compute_done.
  intros Hreg. rewrite Forall_seqZ in Hall. apply Hall. lia.
Qed.

(** The address tag as a sum of its fields. *)
Lemma PCI_CFGTAG_sum (bus dev func reg : Z) :
  0 ≤ bus < 256 → 0 ≤ dev < 32 → 0 ≤ func < 8 → 0 ≤ reg < 256 →
  User.PCI_CFGTAG bus dev func (Z.land reg 0xFC)
  = 2 ^ 31 + bus * 2 ^ 16 + dev * 2 ^ 11 + func * 2 ^ 8 + 4 * (reg / 4).
Proof.
  intros Hb Hd Hf Hr. unfold User.PCI_CFGTAG, User.PCI_CFGTAG_ENABLE.
  rewrite land_FC, !Z.shiftl_mul_pow2 by lia.
  change 0x80000000 with (128 * 2 ^ 24).
  rewrite (lor_high_low 128 24) by lia.
  replace (128 * 2 ^ 24 + bus * 2 ^ 16) with ((32768 + bus) * 2 ^ 16) by lia.
  rewrite (lor_high_low _ 16) by lia.
  replace ((32768 + bus) * 2 ^ 16 + dev * 2 ^ 11)
    with (((32768 + bus) * 32 + dev) * 2 ^ 11) by lia.
  rewrite (lor_high_low _ 11) by lia.
  replace (((32768 + bus) * 32 + dev) * 2 ^ 11 + func * 2 ^ 8)
    with ((((32768 + bus) * 32 + dev) * 8 + func) * 2 ^ 8) by lia.
  rewrite (lor_high_low _ 8) by lia_div. lia.
Qed.

(** X8: the address tag can be taken apart again.  For a bus below 256, a
    device below 32, a function below 8 and a register below 256, the tag
    written to port 0xCF8 is a 32-bit value with the enable bit set whose
    fields give back the bus, the device, the function and the register
    rounded down to its dword; so two functions never share a tag. *)
Theorem PCI_CFGTAG_fields (bus dev func reg : Z) :
  0 ≤ bus < 256 → 0 ≤ dev < 32 → 0 ≤ func < 8 → 0 ≤ reg < 256 →
  let tag := User.PCI_CFGTAG bus dev func (Z.land reg 0xFC) in
  0 ≤ tag < 2 ^ 32
  ∧ Z.testbit tag 31 = true
  ∧ Z.land (Z.shiftr tag 16) 0xFF = bus
  ∧ Z.land (Z.shiftr tag 11) 0x1F = dev
  ∧ Z.land (Z.shiftr tag 8) 0x7 = func
  ∧ Z.land tag 0xFF = reg - reg mod 4.
Proof.
  intros Hb Hd Hf Hr tag. subst tag. rewrite PCI_CFGTAG_sum by done.
  rewrite Z.testbit_true by lia.
  change (2 ^ 31) with 2147483648.
  change (Z.land ?x 0xFF) with (Z.land x (Z.ones 8)).
  change (Z.land ?x 0x1F) with (Z.land x (Z.ones 5)).
  change (Z.land ?x 0x7) with (Z.land x (Z.ones 3)).
  rewrite !Z.land_ones, !Z.shiftr_div_pow2 by lia.
  change (2 ^ 32) with 4294967296.
  change (2 ^ 16) with 65536. change (2 ^ 11) with 2048.
  change (2 ^ 8) with 256. change (2 ^ 5) with 32. change (2 ^ 3) with 8.
  change (2 ^ 1) with 2.
  assert (0 ≤ reg / 4 < 64) as Hq by lia_div.
  assert (reg - reg mod 4 = 4 * (reg / 4)) as -> by lia_div.
  generalize dependent (reg / 4). intros q Hq.
  split_and!; lia_div.
Qed.

Lemma PCI_CFGTAG_fields_witness :
  0 ≤ User.PCI_CFGTAG 3 2 5 (Z.land 0x42 0xFC) < 2 ^ 32
  ∧ Z.testbit (User.PCI_CFGTAG 3 2 5 (Z.land 0x42 0xFC)) 31 = true
  ∧ Z.land (Z.shiftr (User.PCI_CFGTAG 3 2 5 (Z.land 0x42 0xFC)) 16) 0xFF = 3
  ∧ Z.land (Z.shiftr (User.PCI_CFGTAG 3 2 5 (Z.land 0x42 0xFC)) 11) 0x1F = 2
  ∧ Z.land (Z.shiftr (User.PCI_CFGTAG 3 2 5 (Z.land 0x42 0xFC)) 8) 0x7 = 5
  ∧ Z.land (User.PCI_CFGTAG 3 2 5 (Z.land 0x42 0xFC)) 0xFF = 0x42 - 0x42 mod 4.
Proof. apply (PCI_CFGTAG_fields 3 2 5 0x42); lia. Defined.

Example PCI_CFGTAG_documented : User.PCI_CFGTAG 3 2 5 0x40 = 0x80031540.
Proof. reflexivity. Qed.

Lemma read_byte (bus dev func reg : Z) (c : Z → Z) (a : Z) (o : text) :
  User.pci_cfg_reg_read_byte bus dev func reg (User.Machine c a o)
  = Some (Z.land (Z.shiftr (dword_of_tag c bus dev func reg)
                           (Z.land reg 3 * 8)) 0xFF,
          User.Machine c (config_tag bus dev func reg) o).
Proof. reflexivity. Qed.

Lemma read_word (bus dev func reg : Z) (c : Z → Z) (a : Z) (o : text) :
  UserMain.pci_cfg_reg_read_word bus dev func reg (User.Machine c a o)
  = Some (Z.land (Z.shiftr (dword_of_tag c bus dev func reg)
                           (Z.land reg 2 * 8)) 0xFFFF,
          User.Machine c (config_tag bus dev func reg) o).
Proof. reflexivity. Qed.

Lemma config_tag_aligned (bus dev func reg k : Z) :
  0 ≤ reg < 256 → reg mod 4 = 0 → 0 ≤ k < 4 →
  config_tag bus dev func (reg + k) = config_tag bus dev func reg.
Proof.
  intros Hr Hal Hk. unfold config_tag.
  rewrite !land_FC by lia_div. do 3 f_equal. lia_div.
Qed.

Lemma byte_of (d k : Z) :
  0 ≤ k < 4 →
  Z.land (Z.shiftr d (k * 8)) 0xFF = (d / 2 ^ (8 * k)) mod 256.
Proof.
  intros Hk. change 0xFF with (Z.ones 8).
  rewrite Z.land_ones, Z.shiftr_div_pow2 by lia.
  by rewrite (Z.mul_comm k 8).
Qed.

(** X9: a byte read returns the byte of the dword that the low two bits of the
    register select; the four byte reads of an aligned register put the
    dword together again, low byte first, and each of them leaves the
    index register as the dword read does. *)
Theorem read_bytes_of_dword (bus dev func reg : Z) (m : User.machine) :
  0 ≤ reg < 256 → reg mod 4 = 0 →
  ∃ d m' b0 b1 b2 b3,
    User.pci_cfg_reg_read_dword bus dev func reg m = Some (d, m')
    ∧ User.pci_cfg_reg_read_byte bus dev func reg m = Some (b0, m')
    ∧ User.pci_cfg_reg_read_byte bus dev func (reg + 1) m = Some (b1, m')
    ∧ User.pci_cfg_reg_read_byte bus dev func (reg + 2) m = Some (b2, m')
    ∧ User.pci_cfg_reg_read_byte bus dev func (reg + 3) m = Some (b3, m')
    ∧ 0 ≤ b0 < 256 ∧ 0 ≤ b1 < 256 ∧ 0 ≤ b2 < 256 ∧ 0 ≤ b3 < 256
    ∧ d = b0 + 2 ^ 8 * b1 + 2 ^ 16 * b2 + 2 ^ 24 * b3.
Proof.
  destruct m as [c a o]. intros Hr Hal.
  eexists _, _, _, _, _, _.
  split; [apply read_dword|].
  rewrite !read_byte. unfold dword_of_tag.
  rewrite !config_tag_aligned, !land_3, Hal by lia.
  replace ((reg + 1) mod 4) with 1 by lia_div.
  replace ((reg + 2) mod 4) with 2 by lia_div.
  replace ((reg + 3) mod 4) with 3 by lia_div.
  rewrite !byte_of by lia.
  split_and!; try reflexivity.
  all: pose proof (Z.mod_pos_bound (c (config_tag bus dev func reg)) (2 ^ 32)
                     eq_refl) as Hd; unfold wrap32;
    generalize dependent (c (config_tag bus dev func reg) mod 2 ^ 32);
    intros d Hd;
    change (2 ^ 32) with 4294967296 in Hd;
    change (2 ^ (8 * 0)) with 1; change (2 ^ (8 * 1)) with 256;
    change (2 ^ (8 * 2)) with 65536; change (2 ^ (8 * 3)) with 16777216;
    change (2 ^ 8) with 256; change (2 ^ 16) with 65536;
    change (2 ^ 24) with 16777216; lia_div.
Qed.

Lemma read_bytes_of_dword_witness :
  ∃ d m' b0 b1 b2 b3,
    User.pci_cfg_reg_read_dword 0x26 0 0 0x08 sample_machine = Some (d, m')
    ∧ User.pci_cfg_reg_read_byte 0x26 0 0 0x08 sample_machine = Some (b0, m')
    ∧ User.pci_cfg_reg_read_byte 0x26 0 0 (0x08 + 1) sample_machine
      = Some (b1, m')
    ∧ User.pci_cfg_reg_read_byte 0x26 0 0 (0x08 + 2) sample_machine
      = Some (b2, m')
    ∧ User.pci_cfg_reg_read_byte 0x26 0 0 (0x08 + 3) sample_machine
      = Some (b3, m')
    ∧ 0 ≤ b0 < 256 ∧ 0 ≤ b1 < 256 ∧ 0 ≤ b2 < 256 ∧ 0 ≤ b3 < 256
    ∧ d = b0 + 2 ^ 8 * b1 + 2 ^ 16 * b2 + 2 ^ 24 * b3.
Proof.
  apply (read_bytes_of_dword 0x26 0 0 0x08 sample_machine);
    [lia|reflexivity].
Defined.

Lemma word_of (d k : Z) :
  0 ≤ k < 2 →
  Z.land (Z.shiftr d (2 * k * 8)) 0xFFFF = (d / 2 ^ (16 * k)) mod 65536.
Proof.
  intros Hk. change 0xFFFF with (Z.ones 16).
  rewrite Z.land_ones, Z.shiftr_div_pow2 by lia.
  by replace (2 * k * 8) with (16 * k) by lia.
Qed.

(** X10: a word read looks only at bit 1 of the register within its dword: it
    returns the low half of the dword when the bit is clear and the high
    half when it is set, so an odd register reads as the even one below
    it, and the two halves put the dword together again. *)
Theorem read_words_of_dword (bus dev func reg : Z) (m : User.machine) :
  0 ≤ reg < 256 → reg mod 4 = 0 →
  ∃ d m' w0 w1,
    User.pci_cfg_reg_read_dword bus dev func reg m = Some (d, m')
    ∧ UserMain.pci_cfg_reg_read_word bus dev func reg m = Some (w0, m')
    ∧ UserMain.pci_cfg_reg_read_word bus dev func (reg + 1) m = Some (w0, m')
    ∧ UserMain.pci_cfg_reg_read_word bus dev func (reg + 2) m = Some (w1, m')
    ∧ UserMain.pci_cfg_reg_read_word bus dev func (reg + 3) m = Some (w1, m')
    ∧ 0 ≤ w0 < 2 ^ 16 ∧ 0 ≤ w1 < 2 ^ 16
    ∧ d = w0 + 2 ^ 16 * w1.
Proof.
  destruct m as [c a o]. intros Hr Hal.
  eexists _, _, _, _.
  split; [apply read_dword|].
  rewrite !read_word. unfold dword_of_tag.
  rewrite !config_tag_aligned, !land_2 by lia_div.
  replace (reg / 2 mod 2) with 0 by lia_div.
  replace ((reg + 1) / 2 mod 2) with 0 by lia_div.
  replace ((reg + 2) / 2 mod 2) with 1 by lia_div.
  replace ((reg + 3) / 2 mod 2) with 1 by lia_div.
  rewrite !word_of by lia.
  split_and!; try reflexivity.
  all: pose proof (Z.mod_pos_bound (c (config_tag bus dev func reg)) (2 ^ 32)
                     eq_refl) as Hd; unfold wrap32;
    generalize dependent (c (config_tag bus dev func reg) mod 2 ^ 32);
    intros d Hd;
    change (2 ^ 32) with 4294967296 in Hd;
    change (2 ^ (16 * 0)) with 1; change (2 ^ (16 * 1)) with 65536;
    change (2 ^ 16) with 65536; lia_div.
Qed.

Lemma read_words_of_dword_witness :
  ∃ d m' w0 w1,
    User.pci_cfg_reg_read_dword 0x26 0 0 0x2C sample_machine = Some (d, m')
    ∧ UserMain.pci_cfg_reg_read_word 0x26 0 0 0x2C sample_machine
      = Some (w0, m')
    ∧ UserMain.pci_cfg_reg_read_word 0x26 0 0 (0x2C + 1) sample_machine
      = Some (w0, m')
    ∧ UserMain.pci_cfg_reg_read_word 0x26 0 0 (0x2C + 2) sample_machine
      = Some (w1, m')
    ∧ UserMain.pci_cfg_reg_read_word 0x26 0 0 (0x2C + 3) sample_machine
      = Some (w1, m')
    ∧ 0 ≤ w0 < 2 ^ 16 ∧ 0 ≤ w1 < 2 ^ 16
    ∧ d = w0 + 2 ^ 16 * w1.
Proof.
  apply (read_words_of_dword 0x26 0 0 0x2C sample_machine);
    [lia|reflexivity].
Defined.

(** ** main *)

(** [print_pci_header] always returns, leaves the configuration registers
    alone and only appends to the output. *)
Lemma print_pci_header_total (bus dev func : Z) (c : Z → Z) (a : Z) (o : text) :
  ∃ a' t,
    User.print_pci_header bus dev func (User.Machine c a o)
    = Some (tt, User.Machine c a' (o ++ t)).
Proof.
  destruct (decide (header_type_of c bus dev func = 0
                    ∨ header_type_of c bus dev func = 1)) as [Hht|Hht].
  - destruct (print_pci_header_known bus dev func c a o Hht)
      as (a' & ptr & ctype & _ & _ & ->). by eexists _, _.
  - rewrite print_pci_header_unknown by tauto. by eexists _, _.
Qed.

(** X11: arguments that [main] turns down never reach the configuration ports:
    with a wrong number of arguments, a device above 31, a function above
    7 or no permission for the ports, the program returns -1 and the index
    register is as it was.  (The bus is not among the reasons: it is cut
    to 8 bits before it is compared with 255.) *)
Theorem main_rejects_before_io (argc : Z) (argv0 : string)
    (arg1 arg2 arg3 arg4 perm_on perm_off : Z) (m : User.machine) :
  (argc ≠ 4 ∧ argc ≠ 5) ∨ 31 < arg2 mod 256 ∨ 7 < arg3 mod 256
  ∨ perm_on ≠ 0 →
  ∃ m' t,
    UserMain.main argc argv0 arg1 arg2 arg3 arg4 perm_on perm_off m
    = Some (-1, m')
    ∧ User.cfg m' = User.cfg m
    ∧ User.cf8 m' = User.cf8 m
    ∧ User.stdout m' = User.stdout m ++ t.
Proof.
  intros Hrej. destruct m as [c a o]. unfold UserMain.main.
  assert (0 ≤ arg1 mod 256 < 256) as Hbus by (apply Z.mod_pos_bound; lia).
  destruct (negb (argc =? 4) && negb (argc =? 5)) eqn:Hargc.
  { eexists _, _. split_and!; reflexivity. }
  unfold User.printf. rewrite bind_emit. cbv beta.
  destruct ((255 <? arg1 mod 256) || (31 <? arg2 mod 256)
            || (7 <? arg3 mod 256)) eqn:Hbad.
  { eexists _, _. split_and!; [reflexivity|reflexivity|reflexivity|].
    cbn [User.stdout User.put]. by rewrite <- app_assoc. }
  destruct (negb (perm_on =? 0)) eqn:Hperm.
  - eexists _, _. split_and!; [reflexivity|reflexivity|reflexivity|].
    cbn [User.stdout User.put]. by rewrite <- app_assoc.
  - exfalso.
    apply andb_false_iff in Hargc. rewrite !negb_false_iff, !Z.eqb_eq in Hargc.
    rewrite !orb_false_iff, !Z.ltb_ge in Hbad.
    rewrite negb_false_iff, Z.eqb_eq in Hperm. lia.
Qed.

Lemma main_rejects_before_io_witness :
  ∃ m' t,
    UserMain.main 4 "./pci_header" 0x26 32 0 0 0 0 sample_machine
    = Some (-1, m')
    ∧ User.cfg m' = User.cfg sample_machine
    ∧ User.cf8 m' = User.cf8 sample_machine
    ∧ User.stdout m' = User.stdout sample_machine ++ t.
Proof.
  apply (main_rejects_before_io 4 "./pci_header" 0x26 32 0 0 0 0
           sample_machine).
  right. left. reflexivity.
Defined.

(** X12: with four arguments that [main] accepts, the program prints the line
    that repeats them, then the header of the device, then three lines for
    the register: its dword, the half of the dword that bit 1 of the
    register selects and the byte that its low two bits select.  The exit
    status is 0 unless the ports cannot be given back. *)
Theorem main_register_dump (argv0 : string)
    (arg1 arg2 arg3 arg4 perm_off : Z) (m : User.machine) :
  arg2 mod 256 ≤ 31 → arg3 mod 256 ≤ 7 →
  let bus := arg1 mod 256 in
  let dev := arg2 mod 256 in
  let func := arg3 mod 256 in
  let reg := arg4 mod 256 in
  let d := dword_of_tag (User.cfg m) bus dev func reg in
  let echo := str argv0 ++ str " " ++ fmt_x 1 bus ++ str " " ++ fmt_x 1 dev
                ++ str " " ++ fmt_x 1 func ++ [newline] in
  ∃ m1 m',
    User.print_pci_header bus dev func (User.put echo m) = Some (tt, m1)
    ∧ UserMain.main 5 argv0 arg1 arg2 arg3 arg4 0 perm_off m
      = Some (if perm_off =? 0 then 0 else -1, m')
    ∧ User.cfg m' = User.cfg m
    ∧ User.stdout m'
      = User.stdout m1
          ++ unlines
               [str "reg " ++ fmt_x 2 reg ++ str ": " ++ fmt_x 8 d;
                str "reg " ++ fmt_x 2 reg ++ str ": "
                  ++ fmt_x 4 ((d / 2 ^ (16 * (reg / 2 mod 2))) mod 65536);
                str "reg " ++ fmt_x 2 reg ++ str ": "
                  ++ fmt_x 2 ((d / 2 ^ (8 * (reg mod 4))) mod 256)]
          ++ (if perm_off =? 0 then []
              else str "Error requesting IO port access").
Proof.
  intros Hdev Hfunc bus dev func reg d echo.
  destruct m as [c a o]. cbn [User.cfg] in d.
  assert (0 ≤ bus < 256) as Hbus by (apply Z.mod_pos_bound; lia).
  assert (0 ≤ reg < 256) as Hreg by (apply Z.mod_pos_bound; lia).
  rewrite user_put_machine.
  destruct (print_pci_header_total bus dev func c a (o ++ echo))
    as (a1 & t & Hrun).
  destruct (perm_off =? 0) eqn:Hoff;
    (eexists _, _; split; [exact Hrun|]).
  all: cbn [User.stdout].
  all: unfold UserMain.main; cbn [Z.eqb Pos.eqb negb andb].
  all: unfold User.printf at 1; rewrite bind_emit; cbv beta.
  all: fold bus dev func reg echo.
  all: assert ((255 <? bus) || (31 <? dev) || (7 <? func) = false) as ->
    by (rewrite !orb_false_iff, !Z.ltb_ge; lia).
  all: rewrite user_put_machine, (bind_eq _ _ _ _ _ Hrun).
  all: erewrite bind_eq; cycle 1.
  1, 3: rewrite (bind_eq _ _ _ _ _ (read_dword _ _ _ _ _ _ _));
    unfold User.printf; rewrite bind_emit; cbv beta;
    rewrite user_put_machine;
    rewrite (bind_eq _ _ _ _ _ (read_word _ _ _ _ _ _ _));
    rewrite bind_emit; cbv beta; rewrite user_put_machine;
    rewrite (bind_eq _ _ _ _ _ (read_byte _ _ _ _ _ _ _));
    unfold emit; rewrite user_put_machine; reflexivity.
  all: fold (dword_of_tag c bus dev func reg); fold d.
  all: rewrite land_2, land_3, word_of, byte_of by lia_div.
  all: rewrite Hoff; cbn [negb].
  all: unfold User.printf; rewrite ?bind_emit, ?user_put_machine; unfold ret.
  all: split_and!; [reflexivity|reflexivity|].
  all: cbn [User.stdout]; rewrite !unlines_cons, ?app_nil_r, <- !app_assoc.
  all: reflexivity.
Qed.

Lemma main_register_dump_witness :
  ∃ m1 m',
    User.print_pci_header 0x17 0 0
      (User.put (str "./pci_header 17 0 0" ++ [newline]) bridge_machine)
    = Some (tt, m1)
    ∧ UserMain.main 5 "./pci_header" 0x17 0 0 0x0e 0 0 bridge_machine
      = Some (0, m')
    ∧ User.cfg m' = User.cfg bridge_machine
    ∧ User.stdout m'
      = User.stdout m1
          ++ unlines [str "reg 0e: 00010008"; str "reg 0e: 0001";
                      str "reg 0e: 01"]
          ++ [].
Proof.
  apply (main_register_dump "./pci_header" 0x17 0 0 0x0e 0 bridge_machine);
    by vm_compute.
Defined.

(** ** The two loops of a window *)

(** X5: the value row of a window never has more cells than its label row: the
    value loop stops where the label loop stops, or on the first spec of
    width 5 before that, and the two rows have equally many cells exactly
    when no spec of width 5 is among the labelled ones. *)
Theorem value_row_within_label_row {St St' : Type}
    (put : text → St → St) (put' : text → St' → St')
    (rest : list config_space_bitfield) (i v : Z) (b : nat)
    (s s1 : St) (s' s2 : St') (b1 b2 : nat) :
  label_loop put rest i b s = Some (b1, s1) →
  value_loop put' rest i v b s' = Some (b2, s2) →
  (b ≤ b2 ≤ b1)%nat
  ∧ (b2 = b1 ↔ Forall (λ bf, bf_size bf ≠ 5) (take (b1 - b) rest)).
Proof.
  revert b s s'. induction rest as [|bf rest IH]; intros b s s'; [done|].
  rewrite label_loop_cons, value_loop_cons.
  destruct (bf_offset bf <? wrap32 (i + 4)) eqn:Hin.
  - intros Hlabel.
    pose proof (label_loop_labelled _ _ _ _ _ _ _ Hlabel)
      as (n & -> & _ & _).
    replace (S b + n - b)%nat with (S n) by lia. cbn [take].
    rewrite Forall_cons.
    destruct (bf_size bf =? 5) eqn:Hsz.
    + intros [= <- <-]. apply Z.eqb_eq in Hsz.
      split; [lia|]. split; [lia|]. by intros [? _].
    + destruct (value_cell bf i v) as [cell|]; [|done]. intros Hvalue.
      destruct (IH _ _ _ Hlabel Hvalue) as [Hle Hiff].
      replace (S b + n - S b)%nat with n in Hiff by lia.
      apply Z.eqb_neq in Hsz. split; [lia|]. rewrite Hiff. tauto.
  - intros [= <- <-] [= <- <-]. rewrite Nat.sub_diag. cbn [take].
    split; [lia|]. split; [constructor|done].
Qed.

Lemma value_row_within_label_row_witness :
  (12 ≤ 16 ≤ 16)%nat
  ∧ (16%nat = 16%nat
     ↔ Forall (λ bf, bf_size bf ≠ 5) (take (16 - 12) (drop 12 type_1_header))).
Proof.
  apply (value_row_within_label_row collect collect
           (drop 12 type_1_header) 0x18 0x00261817 12 []
           (str " Primary Bus  |Secondary Bus |   Sub. Bus   |Sec Lat timer |")
           []
           (str "     0x17     |     0x18     |     0x26     |     0x00     |")
           16 16); reflexivity.
Defined.

(** ** Module initialisation *)

Lemma length_bind_rows (rows : list text) (sep : text) :
  length (rows ≫= λ row, [row; sep]) = (2 * length rows)%nat.
Proof.
  induction rows as [|row rows IH]; [done|].
  rewrite bind_cons, length_app, IH. cbn [length]. lia.
Qed.

Lemma on_log_run {A} (c : M Kernel.klog A) (a : A) (l l' : Kernel.klog) d p :
  c l = Some (a, l') →
  KernelInit.on_log c (KernelInit.KState l d p)
  = Some (a, KernelInit.KState l' d p).
Proof. unfold KernelInit.on_log. cbn. by intros ->. Qed.

Lemma fmt_lld_wrap64 (n : Z) :
  KernelInit.fmt_lld (wrap64 n) = KernelInit.fmt_lld n.
Proof.
  unfold KernelInit.fmt_lld, KernelInit.to_long_long, wrap64.
  by rewrite Z.mod_mod.
Qed.

Lemma core_log_run (core : KernelInit.pci_core) (c : KernelInit.core_call)
    (l : Kernel.klog) d p :
  KernelInit.core_log core c (KernelInit.KState l d p)
  = Some (tt, KernelInit.KState (l ++ KernelInit.logged core c) d p).
Proof. reflexivity. Qed.

(** The size is printed as a signed number: a length of [2^63] bytes or
    more comes out negative. *)
Example fmt_lld_signed :
  KernelInit.fmt_lld 8388608 = str "8388608"
  ∧ KernelInit.fmt_lld (2 ^ 63 - 1) = str "9223372036854775807"
  ∧ KernelInit.fmt_lld (2 ^ 63) = str "-9223372036854775808"
  ∧ KernelInit.fmt_lld (2 ^ 64 - 1) = str "-1".
Proof. by vm_compute. Qed.

(** X15: [my_dev_init] on a device of header type 0 or 1.  The module
    keeps the device it found.  The log gets the start line and what the
    core logs while it looks for the device and enables it.  If the device
    cannot be enabled, the complaint follows and the status is -1.
    Otherwise the 35 records of the header follow, whether or not BAR0 can
    then be claimed, and then what the core logs for the request.  If the
    request fails the complaint follows, the status is -1 and the mapping
    is left as it was; if it succeeds, what the core logs for the mapping,
    the line with the mapping and the size of BAR0 as a signed 64-bit
    number, and the closing line follow, the mapping is stored and the
    status is 0. *)
Theorem my_dev_init_logs_header (core : KernelInit.pci_core)
    (pdev : Kernel.pci_dev) (s : KernelInit.kstate) :
  KernelInit.get_device core = Some pdev →
  Kernel.hdr_type pdev mod 256 = 0 ∨ Kernel.hdr_type pdev mod 256 = 1 →
  let enabled := KernelInit.enable_device core =? 0 in
  let granted := KernelInit.request_region core =? 0 in
  ∃ header,
    Kernel.print_pci_header (Some pdev) [] = Some (tt, header)
    ∧ length header = 35%nat
    ∧ KernelInit.my_dev_init core s
      = Some
          (if enabled && granted then 0 else -1,
           KernelInit.KState
             (KernelInit.log s
                ++ [KernelInit.DRV_NAME ++ str "my_dev_init" ++ [newline]]
                ++ KernelInit.logged core KernelInit.GetDevice
                ++ KernelInit.logged core KernelInit.EnableDevice
                ++ (if enabled then
                      header
                        ++ KernelInit.logged core KernelInit.RequestRegion
                        ++ (if granted then
                              KernelInit.logged core KernelInit.Iomap
                                ++ [KernelInit.DRV_NAME
                                      ++ str ": my_pci_dev_bar0:"
                                      ++ KernelInit.show_pointer core
                                           (KernelInit.iomap core)
                                      ++ str ", size:"
                                      ++ KernelInit.fmt_lld
                                           (KernelInit.resource_len core)
                                      ++ [newline];
                                    KernelInit.DRV_NAME
                                      ++ str ": my_dev_init done"
                                      ++ [newline]]
                            else
                              [KernelInit.DRV_NAME
                                 ++ str ": cannot request BAR0"
                                 ++ [newline]])
                    else
                      [KernelInit.DRV_NAME
                         ++ str ": PCI adaptor cannot be enabled"
                         ++ [newline]]))
             (Some pdev)
             (if enabled && granted then KernelInit.iomap core
              else KernelInit.my_pci_dev_bar0 s)).
Proof.
  intros Hdev Hht enabled granted. destruct s as [l d p].
  destruct (kernel_print_pci_header_known pdev [] Hht)
    as (ptr & ctype & Hptr & Hctype & Hempty).
  rewrite app_nil_l in Hempty.
  eexists. split; [exact Hempty|].
  split; [by rewrite length_app, length_bind_rows, table_rows_length|].
  unfold KernelInit.my_dev_init. rewrite Hdev.
  unfold KernelInit.pr_info, KernelInit.pr_err.
  erewrite bind_eq; [|by apply on_log_run].
  erewrite bind_eq; [|by apply core_log_run].
  unfold bind at 1, KernelInit.set_my_pci_dev at 1.
  unfold bind at 1, KernelInit.get_my_pci_dev at 1.
  cbn [KernelInit.log KernelInit.my_pci_dev KernelInit.my_pci_dev_bar0].
  erewrite bind_eq; [|by apply core_log_run].
  subst enabled granted.
  destruct (KernelInit.enable_device core =? 0) eqn:Hen; cbn [negb andb].
  2: { erewrite bind_eq; [|by apply on_log_run]. unfold ret, Kernel.info.
       by rewrite <- !app_assoc. }
  match goal with
  | |- context [bind (KernelInit.on_log _) _ (KernelInit.KState ?l0 _ _)] =>
      destruct (kernel_print_pci_header_known pdev l0 Hht)
        as (ptr' & ctype' & Hptr' & Hctype' & Hrun)
  end.
  assert (ptr' = ptr) as -> by congruence.
  assert (ctype' = ctype) as -> by congruence.
  erewrite bind_eq; [|apply on_log_run; exact Hrun].
  erewrite bind_eq; [|by apply core_log_run].
  destruct (KernelInit.request_region core =? 0) eqn:Hreq; cbn [negb].
  - erewrite bind_eq; [|by apply core_log_run].
    unfold bind at 1, KernelInit.set_my_pci_dev_bar0 at 1.
    unfold bind at 1.
    cbn [KernelInit.log KernelInit.my_pci_dev KernelInit.my_pci_dev_bar0].
    erewrite bind_eq; [|by apply on_log_run].
    erewrite bind_eq; [|by apply on_log_run]. unfold ret, Kernel.info.
    rewrite fmt_lld_wrap64. by rewrite <- !app_assoc.
  - erewrite bind_eq; [|by apply on_log_run]. unfold ret, Kernel.info.
    by rewrite <- !app_assoc.
Qed.

Lemma my_dev_init_logs_header_witness :
  ∃ header,
    Kernel.print_pci_header (Some sample_pdev) [] = Some (tt, header)
    ∧ length header = 35%nat
    ∧ KernelInit.my_dev_init busy_core (KernelInit.KState [] None None)
      = Some
          (-1,
           KernelInit.KState
             ([str "my-dev-drvmy_dev_init" ++ [newline]]
                ++ header
                ++ [str "my-dev-drv 0000:26:00.0: BAR 0: can't reserve [mem 0xc2000000-0xc27fffff]"
                      ++ [newline];
                    str "my-dev-drv: cannot request BAR0" ++ [newline]])
             (Some sample_pdev) None).
Proof.
  apply (my_dev_init_logs_header busy_core sample_pdev
           (KernelInit.KState [] None None)).
  - reflexivity.
  - left. reflexivity.
Defined.

Lemma devfn_fields (devfn : Z) :
  0 ≤ devfn < 256 →
  Z.land devfn 0xF8 = 8 * (devfn / 8) ∧ Z.land devfn 0x07 = devfn mod 8.
Proof.
  assert (Forall (λ x, Z.land x 0xF8 = 8 * (x / 8)
                       ∧ Z.land x 0x07 = x mod 8) (seqZ 0 256)) as Hall
    by compute_done.
  intros Hd. rewrite Forall_seqZ in Hall. apply Hall. lia.
Qed.

(** X14: the first record of the kernel copy names the device by [devfn & 0xF8],
    which is eight times the slot number: for the function [func] of the
    slot [slot], the kernel copy prints what the user-space copy prints for
    device [8 * slot]. *)
Theorem kernel_names_eight_times_slot (hdr bus slot func : Z)
    (config : Z → Z) :
  0 ≤ slot < 32 → 0 ≤ func < 8 →
  Kernel.selected_device (Kernel.PciDev hdr bus (8 * slot + func) config)
  = User.selected_device bus (8 * slot) func.
Proof.
  intros Hslot Hfunc.
  unfold Kernel.selected_device, User.selected_device.
  cbn [Kernel.bus_number Kernel.devfn].
  destruct (devfn_fields (8 * slot + func)) as [-> ->]; [lia|].
  do 4 f_equal; [f_equal; lia_div|]. do 2 f_equal. f_equal. lia_div.
Qed.

Lemma kernel_names_eight_times_slot_witness :
  Kernel.selected_device (Kernel.PciDev 0 0 (8 * 0x1f + 1) sample_endpoint)
  = User.selected_device 0 (8 * 0x1f) 1.
Proof.
  apply (kernel_names_eight_times_slot 0 0 0x1f 1 sample_endpoint); lia.
Defined.

(** X7: the header type is compared as it is read, without the mask
    [PCI_HEADER_TYPE_MASK]: a function whose header-type byte has the
    multi-function bit (bit 7) set is reported as of unknown type and no
    line of the table is printed, whatever its low seven bits. *)
Theorem multifunction_header_rejected (bus dev func : Z) (m : User.machine) :
  Z.testbit (header_type_of (User.cfg m) bus dev func) 7 = true →
  ∃ m',
    User.print_pci_header bus dev func m = Some (tt, m')
    ∧ User.cfg m' = User.cfg m
    ∧ User.stdout m'
      = User.stdout m
          ++ unlines [str "Unknown PCI header type: "
                        ++ fmt_x 1 (header_type_of (User.cfg m) bus dev func);
                      User.selected_device bus dev func
                        ++ str "n unknown type"].
Proof.
  destruct m as [c a o]. cbn [User.cfg User.stdout]. intros Hbit.
  assert (header_type_of c bus dev func ≠ 0) as H0
    by (intros E; rewrite E in Hbit; discriminate).
  assert (header_type_of c bus dev func ≠ 1) as H1
    by (intros E; rewrite E in Hbit; discriminate).
  eexists. split; [by apply print_pci_header_unknown|done].
Qed.

Lemma multifunction_header_rejected_witness :
  ∃ m',
    User.print_pci_header 0 0x1f 1 multifunction_machine = Some (tt, m')
    ∧ User.cfg m' = User.cfg multifunction_machine
    ∧ User.stdout m'
      = User.stdout multifunction_machine
          ++ unlines [str "Unknown PCI header type: 80";
                      str "Selected device 0:1f:1 is an unknown type"].
Proof.
  apply (multifunction_header_rejected 0 0x1f 1 multifunction_machine).
  reflexivity.
Defined.
